(** * douyin-dh: the URL resolution and extraction pipeline of [main.py]

    A shallow embedding of [src/main.py] and the properties of its
    pipeline: [clean_url], [extract_video_id], [follow_redirect],
    [fetch_data_with_httpx], [get_data_with_playwright] and the request
    handler [get_douyin_info].

    Conventions of the model.
    - A Python [str] is a [str]: a sequence of Unicode code points, each a
      number.  A literal between double quotes is the sequence of its
      ASCII characters.
    - The class [\d] of Python's [re] on a [str] is the set of decimal
      digits of the Unicode database of the interpreter.  That table is
      not part of the repository: it is the parameter [digit] of the class
      [Unicode], of which only its ASCII part is assumed (among the code
      points below 128, the decimal digits are [0-9]).  The general
      theorems hold for every such table; the sample computations use the
      table of Unicode 14.0.0.
    - Values decoded from JSON are [pyval]; a [dict] is a [gmap str pyval].
    - The network and the browser are an explicit [World]: what each
      outbound call answers, or the exception it raises.
    - Effects are a state-and-exception monad [M] over the list of events
      (outbound calls and log records) the code has performed so far.
    - Exceptions are the subclasses of Python's [Exception], which is what
      the [except Exception] clauses of the source catch. *)

From Stdlib Require Import ZArith NArith Ascii Strings.Byte List Floats.SpecFloat Lia.
From stdpp Require Import gmap.

Set Warnings "-register-all".

(** ** Python strings *)

(** A Unicode code point. *)
Definition char := N.
Bind Scope N_scope with char.

Inductive str : Type :=
| EmptyStr
| StrCons (c : char) (s : str).

(** Reading and printing of literals: ASCII text only. *)
Fixpoint str_of_bytes (l : list byte) : option str :=
  match l with
  | [] => Some EmptyStr
  | b :: l' =>
      if (Byte.to_N b <? 128)%N then
        match str_of_bytes l' with
        | Some s => Some (StrCons (Byte.to_N b) s)
        | None => None
        end
      else None
  end.

Fixpoint bytes_of_str (s : str) : option (list byte) :=
  match s with
  | EmptyStr => Some []
  | StrCons c s' =>
      if (c <? 128)%N then
        match Byte.of_N c, bytes_of_str s' with
        | Some b, Some l => Some (b :: l)
        | _, _ => None
        end
      else None
  end.

Declare Scope str_scope.
Delimit Scope str_scope with str.
Bind Scope str_scope with str.
String Notation str str_of_bytes bytes_of_str : str_scope.
Local Open Scope str_scope.
Local Open Scope list_scope.

(** [a + b] on two [str] *)
Fixpoint append (a b : str) : str :=
  match a with
  | "" => b
  | StrCons c a' => StrCons c (append a' b)
  end.
Infix "+:+" := append (at level 60, right associativity) : str_scope.

(** [len(s)] *)
Fixpoint len (s : str) : nat :=
  match s with
  | "" => 0
  | StrCons _ s' => S (len s')
  end.

(** [a == b] on two [str] *)
Fixpoint str_eqb (a b : str) : bool :=
  match a, b with
  | "", "" => true
  | StrCons x a', StrCons y b' => (x =? y)%N && str_eqb a' b'
  | _, _ => false
  end.

Fixpoint str_to_list (s : str) : list char :=
  match s with
  | "" => []
  | StrCons c s' => c :: str_to_list s'
  end.

Fixpoint list_to_str (l : list char) : str :=
  match l with
  | [] => ""
  | c :: l' => StrCons c (list_to_str l')
  end.

#[global] Instance str_eq_dec : EqDecision str.
Proof. solve_decision. Defined.

#[global] Instance str_countable : Countable str :=
  inj_countable' str_to_list list_to_str
    ltac:(intros s; induction s as [|c s IH]; simpl; [reflexivity | now rewrite IH]).

(** The code point of an ASCII character. *)
Definition chr (a : ascii) : char := N_of_ascii a.

(** ** Operations on strings *)

Module Str.

(** [strip_prefix p s]: the rest of [s] after its prefix [p], if [s]
    starts with [p]. *)
Fixpoint strip_prefix (p s : str) : option str :=
  match p with
  | "" => Some s
  | StrCons a p' =>
      match s with
      | "" => None
      | StrCons b s' => if N.eqb a b then strip_prefix p' s' else None
      end
  end.

(** [str.startswith] *)
Definition startswith (s p : str) : bool :=
  match strip_prefix p s with Some _ => true | None => false end.

(** [span cls s]: the longest prefix of [s] whose characters are all in
    the class [cls], and what follows it. *)
Fixpoint span (cls : char -> bool) (s : str) : str * str :=
  match s with
  | "" => ("", "")
  | StrCons c s' =>
      if cls c then let (a, b) := span cls s' in (StrCons c a, b)
      else ("", s)
  end.

Fixpoint all_in (cls : char -> bool) (s : str) : bool :=
  match s with
  | "" => true
  | StrCons c s' => cls c && all_in cls s'
  end.

Definition starts_in (cls : char -> bool) (s : str) : bool :=
  match s with
  | "" => false
  | StrCons c _ => cls c
  end.

(** the first [n] characters of [s] *)
Fixpoint take (n : nat) (s : str) : str :=
  match n, s with
  | S n', StrCons c s' => StrCons c (take n' s')
  | _, _ => ""
  end.

(** The text a match consumed: [s] without its unconsumed rest. *)
Definition matched (s rest : str) : str :=
  take (len s - len rest) s.

(** [c] is one of the ASCII characters from [lo] to [hi]. *)
Definition in_range (lo hi : ascii) (c : char) : bool :=
  (chr lo <=? c)%N && (c <=? chr hi)%N.

(** [[a-zA-Z0-9]] *)
Definition alnum (c : char) : bool :=
  in_range "a" "z" c || in_range "A" "Z" c || in_range "0" "9" c.

End Str.

(** ** The decimal digits of Unicode

    [\d] in a [str] pattern matches the decimal digits of the Unicode
    database (category Nd).  Missing from the repository: the table of
    the interpreter; taken as the parameter [digit], assumed to hold, of
    the code points below 128, exactly [0] to [9]. *)

Definition ascii_agrees (d : char -> bool) : bool :=
  forallb (fun c => Bool.eqb (d c) (Str.in_range "0" "9" c)) (map N.of_nat (seq 0 128)).

Class Unicode := {
  digit : char -> bool;
  digit_ascii : ascii_agrees digit = true }.

(** The decimal digits of Unicode 14.0.0, the database of CPython 3.11:
    the first and last code point of each run. *)
Definition decimal_ranges : list (char * char) :=
  [(48, 57); (1632, 1641); (1776, 1785); (1984, 1993); (2406, 2415);
   (2534, 2543); (2662, 2671); (2790, 2799); (2918, 2927); (3046, 3055);
   (3174, 3183); (3302, 3311); (3430, 3439); (3558, 3567); (3664, 3673);
   (3792, 3801); (3872, 3881); (4160, 4169); (4240, 4249); (6112, 6121);
   (6160, 6169); (6470, 6479); (6608, 6617); (6784, 6793); (6800, 6809);
   (6992, 7001); (7088, 7097); (7232, 7241); (7248, 7257); (42528, 42537);
   (43216, 43225); (43264, 43273); (43472, 43481); (43504, 43513);
   (43600, 43609); (44016, 44025); (65296, 65305); (66720, 66729);
   (68912, 68921); (69734, 69743); (69872, 69881); (69942, 69951);
   (70096, 70105); (70384, 70393); (70736, 70745); (70864, 70873);
   (71248, 71257); (71360, 71369); (71472, 71481); (71904, 71913);
   (72016, 72025); (72784, 72793); (73040, 73049); (73120, 73129);
   (92768, 92777); (92864, 92873); (93008, 93017); (120782, 120831);
   (123200, 123209); (123632, 123641); (125264, 125273); (130032, 130041)]%N.

Definition in_ranges (ranges : list (char * char)) (c : char) : bool :=
  existsb (fun r => (fst r <=? c)%N && (c <=? snd r)%N) ranges.

Definition unicode_14 : Unicode :=
  {| digit := in_ranges decimal_ranges; digit_ascii := eq_refl |}.

(** ** The fragment of [re] the source uses

  A pattern is written with continuation-passing matchers: each one
  consumes a prefix of the subject and hands the rest to the matcher of
  what follows in the pattern; [None] makes the caller backtrack. *)

Module Re.
Import Str.

Definition matcher (A : Type) := str -> option A.

(** literal text *)
Definition lit {A} (p : str) (k : matcher A) : matcher A :=
  fun s => match strip_prefix p s with
           | Some r => k r
           | None => None
           end.

(** [r1|r2]: [r1] with all that follows it is tried first. *)
Definition alt {A} (r1 r2 : matcher A -> matcher A) (k : matcher A) : matcher A :=
  fun s => match r1 k s with
           | Some a => Some a
           | None => r2 k s
           end.

(** [r?], greedy: with [r] first, then without. *)
Definition opt {A} (r : matcher A -> matcher A) (k : matcher A) : matcher A :=
  alt r (fun k' => k') k.

(** [[cls]+] as the last item of a pattern: greedy, so the longest
    non-empty run; gives the run and the rest of the subject. *)
Definition plus_end (cls : char -> bool) : matcher (str * str) :=
  fun s => match span cls s with
           | ("", _) => None
           | (tok, rest) => Some (tok, rest)
           end.

(** [re.search]: the match at the leftmost position that has one; the
    positions run from the start of the subject to its end included. *)
Fixpoint search {A} (at_pos : matcher A) (s : str) : option A :=
  match at_pos s with
  | Some a => Some a
  | None =>
      match s with
      | "" => None
      | StrCons _ s' => search at_pos s'
      end
  end.

(** [needle in hay] on two [str] *)
Definition contains (needle hay : str) : bool :=
  match search (lit needle (fun _ => Some tt)) hay with
  | Some _ => true
  | None => false
  end.

End Re.

(** ** [clean_url] and [extract_video_id] *)

Import Str Re.

(** [https?://v\.douyin\.com/[a-zA-Z0-9]+] at the start of [s]: [group(0)] *)
Definition short_link_at (s : str) : option str :=
match lit "http" (opt (lit "s") (lit "://v.douyin.com/" (plus_end alnum))) s with
| Some (_, rest) => Some (matched s rest)
| None => None
end.

Definition clean_url (url : str) : str :=
match search short_link_at url with
| Some m => m
| None =>
    if startswith url "https://www.douyin.com/" then url
    else url
end.

(** [/(?:video|note)/(\d+)] at the start of [s]: [group(1)] *)
Definition video_pattern_at `{Unicode} (s : str) : option str :=
match lit "/" (alt (lit "video") (lit "note") (lit "/" (plus_end digit))) s with
| Some (ds, _) => Some ds
| None => None
end.

(** [aweme_id=(\d+)] at the start of [s]: [group(1)] *)
Definition aweme_pattern_at `{Unicode} (s : str) : option str :=
match lit "aweme_id=" (plus_end digit) s with
| Some (ds, _) => Some ds
| None => None
end.

(** [vid=(\d+)] at the start of [s]: [group(1)] *)
Definition vid_pattern_at `{Unicode} (s : str) : option str :=
match lit "vid=" (plus_end digit) s with
| Some (ds, _) => Some ds
| None => None
end.

Definition extract_video_id `{Unicode} (url : str) : option str :=
match search video_pattern_at url with
| Some g => Some g
| None =>
    match search aweme_pattern_at url with
    | Some g => Some g
    | None =>
        match search vid_pattern_at url with
        | Some g => Some g
        | None => None
        end
    end
end.


(** ** Python values and exceptions *)

(** What [response.json()] gives: a decoded JSON document. *)
Inductive pyval :=
| PNone
| PBool (b : bool)
| PInt (z : Z)
| PFloat (f : spec_float)
| PStr (s : str)
| PList (l : list pyval)
| PDict (d : gmap str pyval).

(** The subclasses of [Exception] the code raises or meets. *)
Inductive exn :=
| HTTPException (status_code : Z) (detail : str)
| KeyError (key : str)
| IndexError
| TypeError
| LibraryError (msg : str).   (* raised by httpx or by the JSON decoder *)

(** An exception raised inside the Playwright session, with its [str()]. *)
Record pw_error := PwError { pw_str : str }.

(** A computation that returns or raises. *)
Abbreviation Raise := inl.
Abbreviation Ok := inr.

#[global] Instance result_ret {E} : MRet (sum E) := fun _ a => Ok a.
#[global] Instance result_bind {E} : MBind (sum E) :=
  fun _ _ f r => match r with
                 | inl e => Raise e
                 | inr a => f a
                 end.

(** [bool(v)] *)
Definition truthy (v : pyval) : bool :=
  match v with
  | PNone => false
  | PBool b => b
  | PInt z => negb (z =? 0)%Z
  | PFloat f => match f with S754_zero _ => false | _ => true end
  | PStr s => negb (str_eqb s "")
  | PList l => match l with [] => false | _ => true end
  | PDict d => negb (bool_decide (d = ∅))
  end.

(** [k in v] for a [str] key [k] *)
Definition py_in (k : str) (v : pyval) : exn + bool :=
  match v with
  | PDict d => Ok (bool_decide (is_Some (d !! k)))
  | PList l => Ok (existsb (fun x => match x with PStr s => str_eqb s k | _ => false end) l)
  | PStr s => Ok (contains k s)
  | _ => Raise TypeError
  end.

(** [v[k]] for a [str] key [k] *)
Definition getitem (v : pyval) (k : str) : exn + pyval :=
  match v with
  | PDict d => match d !! k with
               | Some x => Ok x
               | None => Raise (KeyError k)
               end
  | _ => Raise TypeError
  end.

(** [v[0]]; the keys of a decoded JSON object are all [str], so a [dict]
    has no key [0]. *)
Definition getitem0 (v : pyval) : exn + pyval :=
  match v with
  | PList l => match l with
               | x :: _ => Ok x
               | [] => Raise IndexError
               end
  | PStr s => match s with
              | StrCons c _ => Ok (PStr (StrCons c ""))
              | "" => Raise IndexError
              end
  | PDict _ => Raise (KeyError "0")
  | _ => Raise TypeError
  end.

(** The four-key [dict] both fetchers return. *)
Record VideoData := mkVideoData {
  aweme_id : pyval;
  desc : pyval;
  video_url : pyval;
  author : pyval }.

(** The [dict] display of lines 92-97 and 135-140, evaluated in order. *)
Definition video_data_of_detail (detail : pyval) : exn + VideoData :=
  a ← getitem detail "aweme_id";
  d ← getitem detail "desc";
  video ← getitem detail "video";
  play_addr ← getitem video "play_addr";
  url_list ← getitem play_addr "url_list";
  u ← getitem0 url_list;
  au ← getitem detail "author";
  n ← getitem au "nickname";
  Ok (mkVideoData a d u n).

(** [data and 'aweme_detail' in data] as a condition *)
Definition has_aweme_detail (data : pyval) : exn + bool :=
  if truthy data then py_in "aweme_detail" data else Ok false.

(** ** The outside world and the effects of the code *)

Record Response := {
  resp_status_code : Z;
  resp_url : str;               (* [str(response.url)] *)
  resp_json : exn + pyval }.       (* [response.json()] *)

(** A response the page itself received, as the observer sees it. *)
Record PwResponse := {
  pw_resp_url : str;
  pw_resp_json : exn + pyval }.

Record Page := {
  page_url : str;
  page_title : pw_error + str }.

Definition headers_t := list (str * str).

Record World := {
  PLAYWRIGHT_AVAILABLE : bool;
  (** [httpx.AsyncClient(follow_redirects).get(url, headers)] *)
  httpx_get : bool -> headers_t -> str -> exn + Response;
  (** [sync_playwright()], [chromium.launch], [new_page], [page.on] *)
  pw_launch : pw_error + unit;
  (** [page.goto(url)] and the wait after it, on a page that has already
      been to [visited]: the responses the observer is called with, in
      order, and the page reached. *)
  pw_goto : list str -> str -> pw_error + (list PwResponse * Page);
  pw_close : pw_error + unit }.

Inductive event :=
| HttpxGet (follow_redirects : bool) (url : str)
| PwLaunch
| PwGoto (url : str)
| PwClose
| Log (level : str) (msg : str).   (* [msg]: the text before the exception's *)

(** State (the events so far) and exceptions of type [E]. *)
Definition M (E A : Type) : Type := list event -> (E + A) * list event.

#[global] Instance M_ret {E} : MRet (M E) := fun _ a t => (Ok a, t).
#[global] Instance M_bind {E} : MBind (M E) :=
  fun _ _ f m t => match m t with
                   | (inl e, t') => (Raise e, t')
                   | (inr a, t') => f a t'
                   end.

Definition raise {E A} (e : E) : M E A := fun t => (Raise e, t).

(** a pure computation that may raise *)
Definition lift {E A} (r : E + A) : M E A := fun t => (r, t).

(** an outbound call: recorded, then answered by the world *)
Definition call {E A} (ev : event) (r : E + A) : M E A := fun t => (r, t ++ [ev]).

Definition log {E} (level msg : str) : M E unit := fun t => (Ok tt, t ++ [Log level msg]).

(** [try: m except Exception as e: h e] *)
Definition try_except {E E' A} (m : M E A) (h : E -> M E' A) : M E' A :=
  fun t => match m t with
           | (inl e, t') => h e t'
           | (inr a, t') => (Ok a, t')
           end.

(** Outbound calls among the events. *)
Definition is_outbound (ev : event) : bool :=
  match ev with
  | HttpxGet _ _ | PwLaunch | PwGoto _ | PwClose => true
  | Log _ _ => false
  end.

Definition is_browser (ev : event) : bool :=
  match ev with
  | PwLaunch | PwGoto _ | PwClose => true
  | _ => false
  end.

(** ** The fetchers and the request handler *)

Definition follow_redirect (w : World) (short_url : str) : M exn str :=
  try_except
    (response ← call (HttpxGet true short_url) (httpx_get w true [] short_url);
     mret (resp_url response))
    (fun e =>
       log "ERROR" "Error following redirect: ";;
       mret short_url).

Definition detail_api_url (video_id : str) : str :=
  "https://www.douyin.com/aweme/v1/web/aweme/detail/?device_platform=webapp&aid=6383&channel=channel_pc_web&aweme_id="
  +:+ video_id.

Definition httpx_headers : headers_t :=
  [("User-Agent", "Mozilla/5.0 (Windows NT 10.0; Win64; x64) AppleWebKit/537.36 (KHTML, like Gecko) Chrome/91.0.4472.124 Safari/537.36");
   ("Referer", "https://www.douyin.com/");
   ("Accept-Language", "en-US,en;q=0.9")].

(** the record of lines 100-105 *)
Definition unavailable_data (url video_id : str) : VideoData :=
  mkVideoData (PStr video_id) (PStr "Video Description Unavailable") (PStr url) (PStr "Unknown").

(** the record of lines 109-114 *)
Definition error_data (url video_id : str) : VideoData :=
  mkVideoData (PStr video_id) (PStr "Error retrieving video details") (PStr url) (PStr "Unknown").

(** The body of the [try] of [fetch_data_with_httpx], lines 78-105. *)
Definition httpx_attempt (w : World) (url video_id : str) : M exn VideoData :=
  let headers := httpx_headers in
  let api_url := detail_api_url video_id in
  response ← call (HttpxGet false api_url) (httpx_get w false headers api_url);
  if (resp_status_code response =? 200)%Z then
    data ← lift (resp_json response);
    found ← lift (has_aweme_detail data);
    if found : bool then
      detail ← lift (getitem data "aweme_detail");
      lift (video_data_of_detail detail)
    else mret (unavailable_data url video_id)
  else mret (unavailable_data url video_id).

Definition fetch_data_with_httpx (w : World) (url video_id : str) : M exn VideoData :=
  try_except (httpx_attempt w url video_id)
    (fun e =>
       log "ERROR" "Error fetching data with httpx: ";;
       mret (error_data url video_id)).

(** The response observer [handle_response]; [video_data] is the slot
    it assigns, [None] while the slot holds the empty [dict]. *)
Definition handle_response {E} (video_data : option VideoData) (response : PwResponse)
  : M E (option VideoData) :=
  if contains "aweme/v1/web/aweme/detail" (pw_resp_url response) then
    try_except
      (json_data ← lift (pw_resp_json response);
       found ← lift (has_aweme_detail json_data);
       if found : bool then
         detail ← lift (getitem json_data "aweme_detail");
         vd ← lift (video_data_of_detail detail);
         mret (Some vd)
       else mret video_data)
      (fun e : exn =>
         log "ERROR" "Error processing response: ";;
         mret video_data)
  else mret video_data.

(** The observer called on each response in turn. *)
Fixpoint observe {E} (video_data : option VideoData) (responses : list PwResponse)
  : M E (option VideoData) :=
  match responses with
  | [] => mret video_data
  | r :: rs =>
      video_data' ← handle_response video_data r;
      observe video_data' rs
  end.

(** The tests [if video_id:] and [if not video_id:] on the result of
    [extract_video_id]: the [str] when it is truthy, [None] for [None]
    and for the empty [str]. *)
Definition truthy_id (video_id : option str) : option str :=
  match video_id with
  | Some s => if str_eqb s "" then None else Some s
  | None => None
  end.

(** The body of the [try] of [get_data_with_playwright], lines 124-167. *)
Definition playwright_session `{Unicode} (w : World) (url : str) : M pw_error VideoData :=
  call PwLaunch (pw_launch w);;
  '(responses, page) ← call (PwGoto url) (pw_goto w [] url);
  video_data ← observe None responses;
  let current_url := page_url page in
  video_data ←
    match video_data with
    | Some vd => mret vd
    | None =>
        let video_id := extract_video_id current_url in
        '(video_data, page) ←
          match truthy_id video_id with
          | Some video_id =>
              let api_url := detail_api_url video_id in
              '(responses, page) ← call (PwGoto api_url) (pw_goto w [url] api_url);
              video_data ← observe None responses;
              mret (video_data, page)
          | None => mret (None, page)
          end;
        match video_data with
        | Some vd => mret vd
        | None =>
            title ← lift (page_title page);
            mret (mkVideoData (PStr (default "unknown" (truthy_id video_id)))
                              (PStr title) (PStr current_url) (PStr "Unknown"))
        end
    end;
  call PwClose (pw_close w);;
  mret video_data.

Definition get_data_with_playwright `{Unicode} (w : World) (url : str) : M exn VideoData :=
  if negb (PLAYWRIGHT_AVAILABLE w) then
    raise (HTTPException 500 "Playwright not available")
  else
    try_except (playwright_session w url)
      (fun e =>
         log "ERROR" "Playwright error: ";;
         raise (HTTPException 500 ("Playwright error: " +:+ pw_str e))).

(** Lines 189-197 of the handler: Playwright first if available, then
    httpx; [returned] is what the [return] inside the [try] gave, if it
    was reached. *)
Definition fetch_tiers `{Unicode} (w : World) (url video_id : str) : M exn VideoData :=
  returned ←
    (if PLAYWRIGHT_AVAILABLE w then
       try_except
         (vd ← get_data_with_playwright w url; mret (Some vd))
         (fun e =>
            log "WARNING" "Playwright method failed, falling back to httpx: ";;
            mret None)
     else mret None);
  match returned with
  | Some vd => mret vd
  | None => fetch_data_with_httpx w url video_id
  end.

(** The handler of [GET /douyin]. *)
Definition get_douyin_info `{Unicode} (w : World) (url : str) : M exn VideoData :=
  let url := clean_url url in
  url ← (if contains "v.douyin.com" url then follow_redirect w url else mret url);
  let video_id := extract_video_id url in
  match truthy_id video_id with
  | None => raise (HTTPException 400 "Could not extract video ID from URL")
  | Some video_id => fetch_tiers w url video_id
  end.

(** The validation of a returned record against [DouyinResponse], whose
    four fields are [str]: a field passes when it is a [str], or a value
    the installed pydantic turns into one.  Which values those are depends
    on the version of pydantic (none in version 2, numbers in version 1)
    and is the parameter [coerces]. *)
Definition field_valid (coerces : pyval -> bool) (v : pyval) : bool :=
  match v with
  | PStr _ => true
  | _ => coerces v
  end.

Definition response_valid (coerces : pyval -> bool) (vd : VideoData) : bool :=
  field_valid coerces (aweme_id vd) && field_valid coerces (desc vd)
  && field_valid coerces (video_url vd) && field_valid coerces (author vd).

(** The status of the response of the endpoint: 200 for a returned
    record that passes the response model and the framework's 500 for one
    that does not, the status of an [HTTPException] the handler raises,
    and the framework's 500 for any other exception. *)
Definition http_status (coerces : pyval -> bool) (r : exn + VideoData) : Z :=
  match r with
  | inr vd => if response_valid coerces vd then 200 else 500
  | inl (HTTPException status_code _) => status_code
  | inl _ => 500
  end.

(** The response is a 500 that carries an error detail: the handler
    raised an [HTTPException] 500. *)
Definition responds_500_with_detail (r : exn + VideoData) : Prop :=
  exists detail, r = Raise (HTTPException 500 detail).

(** The URL the handler extracts the identifier from: the cleaned input,
    resolved through [follow_redirect] when it names the short-link host. *)
Definition resolved_url (w : World) (raw : str) : str :=
  let url := clean_url raw in
  if contains "v.douyin.com" url then
    match httpx_get w true [] url with
    | inr response => resp_url response
    | inl _ => url
    end
  else url.

(** The events of the first steps of the handler: the request that
    resolves the cleaned URL when it names the short-link host, and the
    error logged when that request raises. *)
Definition resolve_events (w : World) (raw : str) : list event :=
  let url := clean_url raw in
  if contains "v.douyin.com" url then
    HttpxGet true url ::
    match httpx_get w true [] url with
    | inr _ => []
    | inl _ => [Log "ERROR" "Error following redirect: "]
    end
  else [].

(** The events of a browser tier that fails: those of the session, the
    error [get_data_with_playwright] logs and the warning of the handler. *)
Definition failed_browser_events `{Unicode} (w : World) (url : str) : list event :=
  snd (playwright_session w url [])
  ++ [Log "ERROR" "Playwright error: ";
      Log "WARNING" "Playwright method failed, falling back to httpx: "].

(** ** What the patterns say

    Each of the four patterns is one of a few literal texts followed by a
    non-empty run of characters of one class. *)

Record pattern := {
  lits : list str;
  cls : char -> bool }.

Definition run_of (c : char -> bool) (tok : str) : Prop :=
  tok <> "" /\ all_in c tok = true.

(** [m] is a text the pattern matches, [tok] its run. *)
Definition form (P : pattern) (m tok : str) : Prop :=
  exists p, In p (lits P) /\ m = p +:+ tok /\ run_of (cls P) tok.

Definition short_link : pattern :=
  {| lits := ["https://v.douyin.com/"; "http://v.douyin.com/"]; cls := alnum |}.
Definition video_form `{Unicode} : pattern :=
  {| lits := ["/video/"; "/note/"]; cls := digit |}.
Definition aweme_form `{Unicode} : pattern :=
  {| lits := ["aweme_id="]; cls := digit |}.
Definition vid_form `{Unicode} : pattern :=
  {| lits := ["vid="]; cls := digit |}.

(** The pattern matches somewhere in [url]. *)
Definition occurs (P : pattern) (url : str) : Prop :=
  exists pre m tok post, url = pre +:+ m +:+ post /\ form P m tok.

(** A match of [P] starts at the beginning of [s]. *)
Definition matches_at (P : pattern) (s : str) : Prop :=
  exists m tok post, s = m +:+ post /\ form P m tok.

(** [m], with run [tok], is the match [re.search] reports in [url]: no
    match starts at an earlier position, and the run is not followed by
    one more character of the class. *)
Definition first_match (P : pattern) (url m tok : str) : Prop :=
  exists pre post,
    url = pre +:+ m +:+ post /\ form P m tok /\ starts_in (cls P) post = false /\
    forall p1 p2, pre = p1 +:+ p2 -> p2 <> "" -> ~ matches_at P (p2 +:+ m +:+ post).

(** A matcher at a position computes the pattern: it succeeds exactly on
    the subjects that start with a match whose run cannot be extended,
    and gives [out m tok]. *)
Definition implements {A} (at_pos : matcher A) (P : pattern) (out : str -> str -> A)
  : Prop :=
  forall s a,
    at_pos s = Some a <->
    exists m tok rest,
      s = m +:+ rest /\ form P m tok /\ starts_in (cls P) rest = false /\ a = out m tok.


(** A detail object with the nested structure the mapping expects. *)
Definition well_formed_detail (detail : pyval) (a d u n : pyval) : Prop :=
  exists dd video play_addr rest au,
    detail = PDict dd /\
    dd !! "aweme_id" = Some a /\
    dd !! "desc" = Some d /\
    dd !! "video" = Some (PDict video) /\
    video !! "play_addr" = Some (PDict play_addr) /\
    play_addr !! "url_list" = Some (PList (u :: rest)) /\
    dd !! "author" = Some (PDict au) /\
    au !! "nickname" = Some n.

(** A computation only appends to the events, and what it does is the
    same whatever came before. *)
Definition tracing {E A} (m : M E A) : Prop :=
  forall t, m t = (fst (m []), t ++ snd (m [])).

(** ** Sample inputs *)

(** the fullwidth digits 1 2 3, U+FF11 to U+FF13 *)
Definition fullwidth_123 : str := StrCons 65297 (StrCons 65298 (StrCons 65299 "")).

(** the Arabic-Indic digits 3 4, U+0663 and U+0664 *)
Definition arabic_34 : str := StrCons 1635 (StrCons 1636 "").

(** ** Sample worlds *)

Definition sample_detail : pyval :=
  PDict {[ "aweme_id" := PStr "999";
           "desc" := PStr "a video";
           "video" := PDict {[ "play_addr" :=
                                 PDict {[ "url_list" := PList [PStr "https://cdn.example/999.mp4"] ]} ]};
           "author" := PDict {[ "nickname" := PStr "someone" ]} ]}.


Definition no_browser : pw_error := PwError "Executable doesn't exist".

(** The short link redirects to a video page, the detail API answers
    [status] with the body [body], and there is no browser. *)
Definition world_api (status : Z) (body : exn + pyval) : World :=
  {| PLAYWRIGHT_AVAILABLE := false;
     httpx_get := fun follow_redirects _ url =>
       if follow_redirects then
         Ok {| resp_status_code := 200;
               resp_url := "https://www.douyin.com/video/999";
               resp_json := Raise (LibraryError "Expecting value") |}
       else
         Ok {| resp_status_code := status; resp_url := url; resp_json := body |};
     pw_launch := Raise no_browser;
     pw_goto := fun _ _ => Raise no_browser;
     pw_close := Raise no_browser |}.

(** Every outbound request times out. *)
Definition world_down : World :=
  {| PLAYWRIGHT_AVAILABLE := false;
     httpx_get := fun _ _ _ => Raise (LibraryError "timed out");
     pw_launch := Raise no_browser;
     pw_goto := fun _ _ => Raise no_browser;
     pw_close := Raise no_browser |}.

(** Playwright is importable but the browser cannot be launched; the
    detail API answers 404. *)
Definition world_broken_browser : World :=
  {| PLAYWRIGHT_AVAILABLE := true;
     httpx_get := fun _ _ url =>
       Ok {| resp_status_code := 404; resp_url := url;
             resp_json := Raise (LibraryError "Expecting value") |};
     pw_launch := Raise no_browser;
     pw_goto := fun _ _ => Raise no_browser;
     pw_close := Raise no_browser |}.

(** ** Further notions used in the properties *)

Definition is_httpx (ev : event) : bool :=
  match ev with
  | HttpxGet _ _ => true
  | _ => false
  end.

(** The observer captures the record [v] from the response [r]: the URL
    of [r] holds the detail-API path and its body is an object whose
    [aweme_detail] maps to [v]. *)
Definition captures (r : PwResponse) (v : VideoData) : Prop :=
  contains "aweme/v1/web/aweme/detail" (pw_resp_url r) = true /\
  exists d detail,
    pw_resp_json r = Ok (PDict d) /\
    d !! "aweme_detail" = Some detail /\
    video_data_of_detail detail = Ok v.

(** A body that is a JSON number or boolean. *)
Definition is_scalar (v : pyval) : bool :=
  match v with
  | PBool _ | PInt _ | PFloat _ => true
  | _ => false
  end.

(** A world with a working browser: the first navigation of a page
    reports [rs1] and reaches [page1], a later one reports [rs2] and
    reaches [page2]; every httpx request times out. *)
Definition world_browser (rs1 : list PwResponse) (page1 : Page)
    (rs2 : list PwResponse) (page2 : Page) : World :=
  {| PLAYWRIGHT_AVAILABLE := true;
     httpx_get := fun _ _ _ => Raise (LibraryError "timed out");
     pw_launch := Ok tt;
     pw_goto := fun visited _ =>
       match visited with
       | [] => Ok (rs1, page1)
       | _ => Ok (rs2, page2)
       end;
     pw_close := Ok tt |}.

Definition sample_capture : PwResponse :=
  {| pw_resp_url := detail_api_url "999";
     pw_resp_json := Ok (PDict {[ "aweme_detail" := sample_detail ]}) |}.

Definition sample_other_response : PwResponse :=
  {| pw_resp_url := "https://www.douyin.com/static/app.js";
     pw_resp_json := Raise (LibraryError "Expecting value") |}.

Definition sample_video_page : Page :=
  {| page_url := "https://www.douyin.com/video/999"; page_title := Ok "a video - Douyin" |}.

Definition sample_home_page : Page :=
  {| page_url := "https://www.douyin.com/"; page_title := Ok "Douyin" |}.

Definition sample_api_page : Page :=
  {| page_url := detail_api_url "999"; page_title := Ok "" |}.

(** Whatever came before, the computation adds only events that
    satisfy [P]. *)
Definition emits {E A} (P : event -> bool) (m : M E A) : Prop :=
  forall t, exists evs, snd (m t) = t ++ evs /\ forallb P evs = true.

Definition not_httpx (ev : event) : bool := negb (is_httpx ev).

Definition not_outbound (ev : event) : bool := negb (is_outbound ev).

(** * Properties *)

(** ** The functions on sample inputs *)

(** ** Strings and search *)

Module StrFacts.

Lemma str_eqb_eq (a b : str) : str_eqb a b = true <-> a = b.
Proof.
  revert b. induction a as [|x a IH]; intros [|y b]; simpl; try (split; congruence).
  rewrite andb_true_iff, N.eqb_eq, IH. split; [intros [-> ->] | intros [= -> ->]]; auto.
Qed.

Lemma str_eqb_spec (a b : str) : reflect (a = b) (str_eqb a b).
Proof. apply iff_reflect. symmetry. apply str_eqb_eq. Qed.

Lemma app_nil_r (s : str) : s +:+ "" = s.
Proof. induction s as [|c s IH]; simpl; [reflexivity | now rewrite IH]. Qed.

Lemma app_assoc (a b c : str) : (a +:+ b) +:+ c = a +:+ (b +:+ c).
Proof. induction a as [|x a IH]; simpl; [reflexivity | now rewrite IH]. Qed.

Lemma length_app (a b : str) :
  len (a +:+ b) = len a + len b.
Proof. induction a as [|x a IH]; simpl; [reflexivity | now rewrite IH]. Qed.

Lemma strip_prefix_app (p r : str) : strip_prefix p (p +:+ r) = Some r.
Proof.
  induction p as [|a p IH]; simpl; [reflexivity|].
  now rewrite N.eqb_refl.
Qed.

Lemma strip_prefix_Some (p s r : str) :
  strip_prefix p s = Some r <-> s = p +:+ r.
Proof.
  split.
  - revert s. induction p as [|a p IH]; intros s H; simpl in *.
    + congruence.
    + destruct s as [|b s]; [discriminate|].
      destruct (N.eqb a b) eqn:Hab; [|discriminate].
      apply N.eqb_eq in Hab. subst b. f_equal. now apply IH.
  - intros ->. apply strip_prefix_app.
Qed.

Lemma strip_prefix_concat (p q s : str) :
  strip_prefix (p +:+ q) s =
  match strip_prefix p s with
  | Some r => strip_prefix q r
  | None => None
  end.
Proof.
  revert s. induction p as [|a p IH]; intros s; simpl; [reflexivity|].
  destruct s as [|b s]; [reflexivity|].
  destruct (N.eqb a b); [apply IH | reflexivity].
Qed.

Lemma span_app (c : char -> bool) (s : str) :
  s = fst (span c s) +:+ snd (span c s).
Proof.
  induction s as [|x s IH]; simpl; [reflexivity|].
  destruct (c x); [|reflexivity].
  destruct (span c s) as [a b]; simpl in *. now f_equal.
Qed.

Lemma span_all_in (c : char -> bool) (s : str) :
  all_in c (fst (span c s)) = true.
Proof.
  induction s as [|x s IH]; simpl; [reflexivity|].
  destruct (c x) eqn:Hx; [|reflexivity].
  destruct (span c s) as [a b]; simpl in *. now rewrite Hx.
Qed.

Lemma span_stops (c : char -> bool) (s : str) :
  starts_in c (snd (span c s)) = false.
Proof.
  induction s as [|x s IH]; simpl; [reflexivity|].
  destruct (c x) eqn:Hx; [|exact Hx].
  destruct (span c s) as [a b]; simpl in *. exact IH.
Qed.

(** The run [span] finds is the only one that cannot be extended. *)
Lemma span_unique (c : char -> bool) (a b : str) :
  all_in c a = true -> starts_in c b = false -> span c (a +:+ b) = (a, b).
Proof.
  intros Ha Hb. induction a as [|x a IH]; simpl in *.
  - destruct b as [|y b]; simpl in *; [reflexivity | now rewrite Hb].
  - apply andb_true_iff in Ha as [Hx Ha]. rewrite Hx, (IH Ha). reflexivity.
Qed.

(** A run that opens the subject is part of the one [span] finds. *)
Lemma span_nonempty (c : char -> bool) (a b : str) :
  a <> "" -> all_in c a = true -> fst (span c (a +:+ b)) <> "".
Proof.
  intros Hne Ha. destruct a as [|x a]; [congruence|]. simpl in *.
  apply andb_true_iff in Ha as [Hx _]. rewrite Hx.
  destruct (span c (a +:+ b)); simpl. discriminate.
Qed.

Lemma take_length_app (a b : str) : take (len a) (a +:+ b) = a.
Proof. induction a as [|x a IH]; simpl; [now destruct b | now rewrite IH]. Qed.

Lemma matched_app (m rest : str) : matched (m +:+ rest) rest = m.
Proof.
  unfold matched. rewrite length_app.
  replace (len m + len rest - len rest)
    with (len m) by lia.
  apply take_length_app.
Qed.

(** [search] reports the match at the leftmost position that has one. *)
Lemma search_Some {A} (f : matcher A) (s : str) (x : A) :
  search f s = Some x <->
  exists pre suf,
    s = pre +:+ suf /\ f suf = Some x /\
    forall p1 p2, pre = p1 +:+ p2 -> p2 <> "" -> f (p2 +:+ suf) = None.
Proof.
  split.
  - induction s as [|c s IH]; simpl; intros H.
    + destruct (f "") eqn:Hf; [|discriminate].
      exists "", "". repeat split; [congruence|].
      intros p1 p2 Hp Hne. destruct p1, p2; simpl in *; congruence.
    + destruct (f (StrCons c s)) eqn:Hf.
      * exists "", (StrCons c s). repeat split; [congruence|].
        intros p1 p2 Hp Hne. destruct p1, p2; simpl in *; congruence.
      * destruct (IH H) as (pre & suf & -> & Hsuf & Hleft).
        exists (StrCons c pre), suf. repeat split; [exact Hsuf|].
        intros p1 p2 Hp Hne. destruct p1 as [|d p1]; simpl in Hp.
        -- subst p2. exact Hf.
        -- injection Hp as _ Hp. now apply (Hleft p1).
  - intros (pre & suf & -> & Hsuf & Hleft).
    induction pre as [|c pre IH]; simpl.
    + destruct suf; simpl; now rewrite Hsuf.
    + pose proof (Hleft "" (StrCons c pre) eq_refl ltac:(congruence)) as H0.
      simpl in H0. rewrite H0.
      apply IH. intros p1 p2 -> Hne. now apply (Hleft (StrCons c p1)).
Qed.

Lemma search_None {A} (f : matcher A) (s : str) :
  search f s = None <-> forall pre suf, s = pre +:+ suf -> f suf = None.
Proof.
  split.
  - induction s as [|c s IH]; simpl; intros H pre suf Hs.
    + destruct pre, suf; simpl in Hs; try discriminate.
      now destruct (f "").
    + destruct (f (StrCons c s)) eqn:Hf; [discriminate|].
      destruct pre as [|d pre]; simpl in Hs; [now subst suf|].
      injection Hs as _ Hs. now apply (IH H pre).
  - induction s as [|c s IH]; simpl; intros H.
    + now rewrite (H "" "").
    + rewrite (H "" (StrCons c s)) by reflexivity.
      apply IH. intros pre suf ->. now apply (H (StrCons c pre)).
Qed.

Lemma contains_true (needle hay : str) :
  contains needle hay = true <-> exists pre post, hay = pre +:+ needle +:+ post.
Proof.
  unfold contains. split.
  - destruct (search _ hay) eqn:Hs; [|discriminate]. intros _.
    apply search_Some in Hs as (pre & suf & -> & Hsuf & _).
    unfold lit in Hsuf. destruct (strip_prefix needle suf) eqn:Hp; [|discriminate].
    apply strip_prefix_Some in Hp as ->. now exists pre, s.
  - intros (pre & post & ->).
    destruct (search _ (pre +:+ needle +:+ post)) eqn:Hs; [reflexivity|].
    assert (H := proj1 (search_None _ _) Hs pre (needle +:+ post) eq_refl).
    unfold lit in H. now rewrite strip_prefix_app in H.
Qed.

End StrFacts.

(** ** The matchers compute the patterns *)

Module PatternFacts.
Import StrFacts.

Lemma lit_concat {A} (p q : str) (k : matcher A) (s : str) :
  lit (p +:+ q) k s = lit p (lit q k) s.
Proof.
  unfold lit. rewrite strip_prefix_concat.
  destruct (strip_prefix p s); reflexivity.
Qed.

Lemma lit_concat3 {A} (p q r : str) (k : matcher A) (s : str) :
  lit (p +:+ q +:+ r) k s = lit p (lit q (lit r k)) s.
Proof.
  unfold lit. rewrite strip_prefix_concat.
  destruct (strip_prefix p s) as [s1|]; [|reflexivity].
  rewrite strip_prefix_concat.
  destruct (strip_prefix q s1); reflexivity.
Qed.

Lemma lit_alt {A} (p : str) (r1 r2 : matcher A -> matcher A) (k : matcher A) (s : str) :
  lit p (alt r1 r2 k) s =
  match lit p (r1 k) s with
  | Some a => Some a
  | None => lit p (r2 k) s
  end.
Proof. unfold lit, alt. destruct (strip_prefix p s); reflexivity. Qed.

Lemma plus_end_Some (c : char -> bool) (s tok rest : str) :
  plus_end c s = Some (tok, rest) <->
  s = tok +:+ rest /\ run_of c tok /\ starts_in c rest = false.
Proof.
  unfold plus_end, run_of. split.
  - intros H.
    pose proof (span_app c s) as Happ. pose proof (span_all_in c s) as Hall.
    pose proof (span_stops c s) as Hstop.
    destruct (span c s) as [a b]; simpl in *.
    destruct a as [|x a]; [discriminate|].
    injection H as <- <-. repeat split; auto; discriminate.
  - intros (-> & [Hne Hall] & Hstop).
    rewrite (span_unique c tok rest Hall Hstop).
    destruct tok; [congruence | reflexivity].
Qed.

Lemma lit_plus_end_Some (p : str) (c : char -> bool) (s tok rest : str) :
  lit p (plus_end c) s = Some (tok, rest) <->
  s = p +:+ tok +:+ rest /\ run_of c tok /\ starts_in c rest = false.
Proof.
  unfold lit. split.
  - destruct (strip_prefix p s) as [r|] eqn:Hp; [|discriminate].
    apply strip_prefix_Some in Hp as ->. intros H.
    apply plus_end_Some in H as (-> & H). now split.
  - intros (-> & H). rewrite strip_prefix_app. apply plus_end_Some. now split.
Qed.

(** Two literals of which the first never opens a text the second opens:
    at most one branch of the alternation can match. *)
Lemma two_lits_Some (p1 p2 : str) (c : char -> bool) (s tok rest : str) :
  (forall x, strip_prefix p1 (p2 +:+ x) = None) ->
  match lit p1 (plus_end c) s with
  | Some a => Some a
  | None => lit p2 (plus_end c) s
  end = Some (tok, rest) <->
  (s = p1 +:+ tok +:+ rest \/ s = p2 +:+ tok +:+ rest) /\
  run_of c tok /\ starts_in c rest = false.
Proof.
  intros Hexcl. split.
  - destruct (lit p1 (plus_end c) s) as [a|] eqn:H1.
    + intros [= ->]. apply lit_plus_end_Some in H1 as (-> & H). split; auto.
    + intros H2. apply lit_plus_end_Some in H2 as (-> & H). split; auto.
  - intros ([-> | ->] & H).
    + assert (H1 : lit p1 (plus_end c) (p1 +:+ tok +:+ rest) = Some (tok, rest))
        by (apply lit_plus_end_Some; now split).
      now rewrite H1.
    + assert (H1 : lit p1 (plus_end c) (p2 +:+ tok +:+ rest) = None)
        by (unfold lit; now rewrite Hexcl).
      rewrite H1. apply lit_plus_end_Some. now split.
Qed.

Lemma video_pattern_branches `{U : Unicode} (s : str) :
  lit "/" (alt (lit "video") (lit "note") (lit "/" (plus_end digit))) s =
  match lit "/video/" (plus_end digit) s with
  | Some a => Some a
  | None => lit "/note/" (plus_end digit) s
  end.
Proof.
  rewrite lit_alt.
  change "/video/" with ("/" +:+ "video" +:+ "/").
  change "/note/" with ("/" +:+ "note" +:+ "/").
  now rewrite !lit_concat3.
Qed.

Lemma short_link_branches (s : str) :
  lit "http" (opt (lit "s") (lit "://v.douyin.com/" (plus_end alnum))) s =
  match lit "https://v.douyin.com/" (plus_end alnum) s with
  | Some a => Some a
  | None => lit "http://v.douyin.com/" (plus_end alnum) s
  end.
Proof.
  unfold opt. rewrite lit_alt.
  change "https://v.douyin.com/" with ("http" +:+ "s" +:+ "://v.douyin.com/").
  change "http://v.douyin.com/" with ("http" +:+ "://v.douyin.com/").
  now rewrite lit_concat3, lit_concat.
Qed.

Lemma video_pattern_implements `{U : Unicode} :
  implements video_pattern_at video_form (fun _ tok => tok).
Proof.
  intros s a. unfold video_pattern_at. rewrite video_pattern_branches.
  split.
  - destruct (match lit "/video/" _ s with Some _ => _ | None => _ end)
      as [[ds r]|] eqn:H; [|discriminate].
    intros [= <-].
    apply two_lits_Some in H as (Hs & Hrun & Hstop); [|reflexivity].
    destruct Hs as [-> | ->].
    + exists ("/video/" +:+ ds), ds, r. repeat split; auto.
      all: exists "/video/"; simpl; now auto.
    + exists ("/note/" +:+ ds), ds, r. repeat split; auto.
      all: exists "/note/"; simpl; now auto.
  - intros (m & tok & rest & -> & (p & Hp & -> & Hrun) & Hstop & ->).
    assert (H : match lit "/video/" (plus_end digit) ((p +:+ tok) +:+ rest) with
                | Some a => Some a
                | None => lit "/note/" (plus_end digit) ((p +:+ tok) +:+ rest)
                end = Some (tok, rest)).
    { rewrite app_assoc. apply two_lits_Some; [reflexivity|].
      simpl in Hp. destruct Hp as [<- | [<- | []]]; auto. }
    now rewrite H.
Qed.

Lemma short_link_implements :
  implements short_link_at short_link (fun m _ => m).
Proof.
  intros s a. unfold short_link_at. rewrite short_link_branches.
  split.
  - destruct (match lit "https://v.douyin.com/" _ s with Some _ => _ | None => _ end)
      as [[tok r]|] eqn:H; [|discriminate].
    intros [= <-].
    apply two_lits_Some in H as (Hs & Hrun & Hstop); [|reflexivity].
    destruct Hs as [-> | ->].
    + exists ("https://v.douyin.com/" +:+ tok), tok, r.
      rewrite <- app_assoc, matched_app. repeat split; auto.
      all: try (now rewrite app_assoc).
      all: exists "https://v.douyin.com/"; simpl; now auto.
    + exists ("http://v.douyin.com/" +:+ tok), tok, r.
      rewrite <- app_assoc, matched_app. repeat split; auto.
      all: try (now rewrite app_assoc).
      all: exists "http://v.douyin.com/"; simpl; now auto.
  - intros (m & tok & rest & -> & (p & Hp & -> & Hrun) & Hstop & ->).
    assert (H : match lit "https://v.douyin.com/" (plus_end alnum) ((p +:+ tok) +:+ rest) with
                | Some a => Some a
                | None => lit "http://v.douyin.com/" (plus_end alnum) ((p +:+ tok) +:+ rest)
                end = Some (tok, rest)).
    { rewrite app_assoc. apply two_lits_Some; [reflexivity|].
      simpl in Hp. destruct Hp as [<- | [<- | []]]; auto. }
    rewrite H. now rewrite matched_app.
Qed.

Lemma single_lit_implements (p : str) (c : char -> bool) :
  implements
    (fun s => match lit p (plus_end c) s with
              | Some (ds, _) => Some ds
              | None => None
              end)
    {| lits := [p]; cls := c |} (fun _ tok => tok).
Proof.
  intros s a. split.
  - destruct (lit p (plus_end c) s) as [[ds r]|] eqn:H; [|discriminate].
    intros [= <-]. apply lit_plus_end_Some in H as (-> & Hrun & Hstop).
    exists (p +:+ ds), ds, r. rewrite app_assoc. repeat split; auto.
    exists p. simpl. auto.
  - intros (m & tok & rest & -> & (q & Hq & -> & Hrun) & Hstop & ->).
    simpl in Hq. destruct Hq as [<- | []].
    assert (H : lit p (plus_end c) ((p +:+ tok) +:+ rest) = Some (tok, rest))
      by (rewrite app_assoc; apply lit_plus_end_Some; now split).
    now rewrite H.
Qed.

Lemma aweme_pattern_implements `{U : Unicode} :
  implements aweme_pattern_at aweme_form (fun _ tok => tok).
Proof. exact (single_lit_implements "aweme_id=" digit). Qed.

Lemma vid_pattern_implements `{U : Unicode} :
  implements vid_pattern_at vid_form (fun _ tok => tok).
Proof. exact (single_lit_implements "vid=" digit). Qed.

End PatternFacts.

(** ** What [re.search] reports for a pattern *)

Section SearchFacts.
Import StrFacts.
Context {A : Type} (at_pos : matcher A) (P : pattern) (out : str -> str -> A).
Hypothesis Himpl : implements at_pos P out.

Lemma at_pos_None (s : str) : at_pos s = None <-> ~ matches_at P s.
Proof.
  split.
  - intros Hnone (m & tok & post & -> & p & Hp & -> & Hne & Hall).
    pose proof (span_app (cls P) (tok +:+ post)) as Happ.
    pose proof (span_all_in (cls P) (tok +:+ post)) as Hall'.
    pose proof (span_stops (cls P) (tok +:+ post)) as Hstop.
    pose proof (span_nonempty (cls P) tok post Hne Hall) as Hne'.
    destruct (span (cls P) (tok +:+ post)) as [a b]; simpl in *.
    assert (H : at_pos ((p +:+ tok) +:+ post) = Some (out (p +:+ a) a)).
    { apply Himpl. exists (p +:+ a), a, b. repeat split; auto.
      - rewrite !app_assoc. now rewrite Happ.
      - exists p. repeat split; auto. }
    congruence.
  - intros Hno. destruct (at_pos s) as [a|] eqn:H; [|reflexivity].
    apply Himpl in H as (m & tok & rest & -> & Hform & _).
    exfalso. apply Hno. now exists m, tok, rest.
Qed.

Lemma search_first_match (url : str) (a : A) :
  search at_pos url = Some a <->
  exists m tok, first_match P url m tok /\ a = out m tok.
Proof.
  rewrite search_Some. split.
  - intros (pre & suf & -> & Hsuf & Hleft).
    apply Himpl in Hsuf as (m & tok & rest & -> & Hform & Hstop & ->).
    exists m, tok. split; [|reflexivity].
    exists pre, rest. repeat split; auto.
    intros p1 p2 Hp Hne. apply at_pos_None. now apply (Hleft p1).
  - intros (m & tok & (pre & post & -> & Hform & Hstop & Hleft) & ->).
    exists pre, (m +:+ post). repeat split.
    + apply Himpl. now exists m, tok, post.
    + intros p1 p2 Hp Hne. apply at_pos_None. now apply (Hleft p1).
Qed.

Lemma search_no_match (url : str) :
  search at_pos url = None <-> ~ occurs P url.
Proof.
  split.
  - intros Hnone (pre & m & tok & post & -> & Hform).
    rewrite search_None in Hnone.
    specialize (Hnone pre (m +:+ post) eq_refl).
    apply at_pos_None in Hnone. apply Hnone. now exists m, tok, post.
  - intros Hno. destruct (search at_pos url) as [a|] eqn:H; [|reflexivity].
    apply search_first_match in H as (m & tok & (pre & post & -> & Hform & _) & _).
    exfalso. apply Hno. now exists pre, m, tok, post.
Qed.

Lemma search_occurs (url : str) :
  occurs P url ->
  exists m tok, first_match P url m tok /\ search at_pos url = Some (out m tok).
Proof.
  intros Hocc. destruct (search at_pos url) as [a|] eqn:H.
  - apply search_first_match in H as (m & tok & Hfm & ->). now exists m, tok.
  - apply search_no_match in H. contradiction.
Qed.

End SearchFacts.

Lemma form_run (P : pattern) (m tok : str) : form P m tok -> run_of (cls P) tok.
Proof. now intros (p & _ & _ & H). Qed.

(** ** [clean_url] *)

(** C5: [clean_url] is total; on an input in which the short-link
    pattern occurs it returns the matching substring that [re.search]
    reports (the leftmost one, its token taken as far as it goes), whatever
    the text around it; on any other input, with the canonical prefix or
    without, it returns the input unchanged. *)
Theorem clean_url_spec (raw : str) :
  (occurs short_link raw ->
   exists m tok, first_match short_link raw m tok /\ clean_url raw = m) /\
  (forall m tok, first_match short_link raw m tok -> clean_url raw = m) /\
  (~ occurs short_link raw -> clean_url raw = raw).
Proof.
  unfold clean_url. split; [|split].
  - intros Hocc.
    destruct (search_occurs _ _ _ PatternFacts.short_link_implements raw Hocc)
      as (m & tok & Hfm & Hs).
    rewrite Hs. now exists m, tok.
  - intros m tok Hfm.
    assert (Hs : search short_link_at raw = Some m)
      by (apply (search_first_match _ _ _ PatternFacts.short_link_implements);
          now exists m, tok).
    now rewrite Hs.
  - intros Hno.
    apply (search_no_match _ _ _ PatternFacts.short_link_implements) in Hno.
    rewrite Hno. now destruct (startswith raw _).
Qed.

(** ** [extract_video_id] *)

Lemma extract_video_id_run `{U : Unicode} (url ds : str) :
  extract_video_id url = Some ds -> run_of digit ds.
Proof.
  unfold extract_video_id.
  destruct (search video_pattern_at url) as [g|] eqn:H1.
  { intros [= <-].
    apply (search_first_match _ _ _ PatternFacts.video_pattern_implements) in H1
      as (m & tok & (pre & post & _ & Hform & _) & ->).
    exact (form_run _ _ _ Hform). }
  destruct (search aweme_pattern_at url) as [g|] eqn:H2.
  { intros [= <-].
    apply (search_first_match _ _ _ PatternFacts.aweme_pattern_implements) in H2
      as (m & tok & (pre & post & _ & Hform & _) & ->).
    exact (form_run _ _ _ Hform). }
  destruct (search vid_pattern_at url) as [g|] eqn:H3; [|discriminate].
  intros [= <-].
  apply (search_first_match _ _ _ PatternFacts.vid_pattern_implements) in H3
    as (m & tok & (pre & post & _ & Hform & _) & ->).
  exact (form_run _ _ _ Hform).
Qed.

Lemma extract_by_aweme `{U : Unicode} (url m ds : str) :
  ~ occurs video_form url -> first_match aweme_form url m ds ->
  extract_video_id url = Some ds.
Proof.
  intros Hnv Hfm. unfold extract_video_id.
  apply (search_no_match _ _ _ PatternFacts.video_pattern_implements) in Hnv.
  rewrite Hnv.
  assert (H : search aweme_pattern_at url = Some ds)
    by (apply (search_first_match _ _ _ PatternFacts.aweme_pattern_implements);
        now exists m, ds).
  now rewrite H.
Qed.

Lemma extract_by_vid `{U : Unicode} (url m ds : str) :
  ~ occurs video_form url -> ~ occurs aweme_form url -> first_match vid_form url m ds ->
  extract_video_id url = Some ds.
Proof.
  intros Hnv Hna Hfm. unfold extract_video_id.
  apply (search_no_match _ _ _ PatternFacts.video_pattern_implements) in Hnv.
  apply (search_no_match _ _ _ PatternFacts.aweme_pattern_implements) in Hna.
  rewrite Hnv, Hna.
  assert (H : search vid_pattern_at url = Some ds)
    by (apply (search_first_match _ _ _ PatternFacts.vid_pattern_implements);
        now exists m, ds).
  now rewrite H.
Qed.

(** C2: [extract_video_id] tries the path form, then [aweme_id=], then
    [vid=], and the first pattern that occurs in the URL gives the result:
    the digits of the match [re.search] reports for it.  It returns [None]
    exactly when none of the three occurs. *)
Theorem extract_video_id_priority `{U : Unicode} (url : str) :
  (occurs video_form url ->
   exists m ds, first_match video_form url m ds /\ extract_video_id url = Some ds) /\
  (~ occurs video_form url -> occurs aweme_form url ->
   exists m ds, first_match aweme_form url m ds /\ extract_video_id url = Some ds) /\
  (~ occurs video_form url -> ~ occurs aweme_form url -> occurs vid_form url ->
   exists m ds, first_match vid_form url m ds /\ extract_video_id url = Some ds) /\
  (extract_video_id url = None <->
   ~ occurs video_form url /\ ~ occurs aweme_form url /\ ~ occurs vid_form url) /\
  (forall m ds, first_match video_form url m ds -> extract_video_id url = Some ds) /\
  (forall m ds, ~ occurs video_form url -> first_match aweme_form url m ds ->
                extract_video_id url = Some ds) /\
  (forall m ds, ~ occurs video_form url -> ~ occurs aweme_form url ->
                first_match vid_form url m ds -> extract_video_id url = Some ds).
Proof.
  assert (Hdet :
    (forall m ds, first_match video_form url m ds -> extract_video_id url = Some ds) /\
    (forall m ds, ~ occurs video_form url -> first_match aweme_form url m ds ->
                  extract_video_id url = Some ds) /\
    (forall m ds, ~ occurs video_form url -> ~ occurs aweme_form url ->
                  first_match vid_form url m ds -> extract_video_id url = Some ds)).
  { split; [|split].
    - intros m ds Hfm. unfold extract_video_id.
      assert (H : search video_pattern_at url = Some ds)
        by (apply (search_first_match _ _ _ PatternFacts.video_pattern_implements);
            now exists m, ds).
      now rewrite H.
    - intros m ds. apply extract_by_aweme.
    - intros m ds. apply extract_by_vid. }
  revert Hdet.
  pose proof (search_occurs _ _ _ PatternFacts.video_pattern_implements url) as Hv.
  pose proof (search_occurs _ _ _ PatternFacts.aweme_pattern_implements url) as Ha.
  pose proof (search_occurs _ _ _ PatternFacts.vid_pattern_implements url) as Hi.
  pose proof (search_no_match _ _ _ PatternFacts.video_pattern_implements url) as Nv.
  pose proof (search_no_match _ _ _ PatternFacts.aweme_pattern_implements url) as Na.
  pose proof (search_no_match _ _ _ PatternFacts.vid_pattern_implements url) as Ni.
  intros Hdet. unfold extract_video_id.
  split; [|split; [|split; [|split; [split|exact Hdet]]]].
  - intros Hocc. destruct (Hv Hocc) as (m & ds & Hfm & ->). now exists m, ds.
  - intros Hnv Hocc. apply Nv in Hnv. rewrite Hnv.
    destruct (Ha Hocc) as (m & ds & Hfm & ->). now exists m, ds.
  - intros Hnv Hna Hocc. apply Nv in Hnv. apply Na in Hna. rewrite Hnv, Hna.
    destruct (Hi Hocc) as (m & ds & Hfm & ->). now exists m, ds.
  - intros H. repeat split.
    + apply Nv. now destruct (search video_pattern_at url).
    + apply Na. destruct (search video_pattern_at url); [discriminate|].
      now destruct (search aweme_pattern_at url).
    + apply Ni. destruct (search video_pattern_at url); [discriminate|].
      destruct (search aweme_pattern_at url); [discriminate|].
      now destruct (search vid_pattern_at url).
  - intros (Hnv & Hna & Hni). apply Nv in Hnv. apply Na in Hna. apply Ni in Hni.
    now rewrite Hnv, Hna, Hni.
Qed.

Lemma extract_video_id_None `{U : Unicode} (url : str) :
  extract_video_id url = None <->
  ~ occurs video_form url /\ ~ occurs aweme_form url /\ ~ occurs vid_form url.
Proof.
  rewrite <- (search_no_match _ _ _ PatternFacts.video_pattern_implements).
  rewrite <- (search_no_match _ _ _ PatternFacts.aweme_pattern_implements).
  rewrite <- (search_no_match _ _ _ PatternFacts.vid_pattern_implements).
  unfold extract_video_id.
  destruct (search video_pattern_at url); [intuition discriminate|].
  destruct (search aweme_pattern_at url); [intuition discriminate|].
  destruct (search vid_pattern_at url); intuition discriminate.
Qed.

(** ** The ASCII part of the decimal digits *)

Lemma digit_ascii_spec `{U : Unicode} (c : char) :
  (c < 128)%N -> digit c = in_range "0" "9" c.
Proof.
  intros Hc. pose proof digit_ascii as H. unfold ascii_agrees in H.
  rewrite forallb_forall in H. apply Bool.eqb_prop, H.
  apply in_map_iff. exists (N.to_nat c). split; [apply N2Nat.id|].
  apply in_seq. lia.
Qed.

Lemma in_range_ascii (lo hi : ascii) (c : char) :
  in_range lo hi c = true -> (c < 256)%N.
Proof.
  unfold in_range, chr. intros H. apply andb_true_iff in H as [_ H].
  apply N.leb_le in H. pose proof (N_ascii_bounded hi). lia.
Qed.

Lemma digit_0_9 `{U : Unicode} (c : char) : in_range "0" "9" c = true -> digit c = true.
Proof.
  intros H. rewrite digit_ascii_spec; [exact H|].
  unfold in_range, chr in H. apply andb_true_iff in H as [_ H].
  apply N.leb_le in H. simpl in H. lia.
Qed.

Lemma all_in_digit_0_9 `{U : Unicode} (s : str) :
  all_in (in_range "0" "9") s = true -> all_in digit s = true.
Proof.
  induction s as [|c s IH]; simpl; [reflexivity|].
  intros H. apply andb_true_iff in H as [Hc Hs].
  now rewrite (digit_0_9 c Hc), (IH Hs).
Qed.

(** An ASCII character that is not one of [0-9] is no decimal digit. *)
Lemma digit_ascii_other `{U : Unicode} (c : char) :
  (c <? 128)%N && negb (in_range "0" "9" c) = true -> digit c = false.
Proof.
  intros H. apply andb_true_iff in H as [Hc Hn]. apply N.ltb_lt in Hc.
  rewrite (digit_ascii_spec c Hc). now apply negb_true_iff.
Qed.

Lemma search_cons_None {A} (f : matcher A) (x : char) (s : str) :
  f (StrCons x s) = None -> search f (StrCons x s) = search f s.
Proof. intros H. simpl. now rewrite H. Qed.

Lemma search_here {A} (f : matcher A) (s : str) (a : A) :
  f s = Some a -> search f s = Some a.
Proof. intros H. destruct s; simpl; now rewrite H. Qed.

(** Goes over the positions of a literal text none of which opens a match. *)
Ltac skip_literal := repeat (rewrite search_cons_None by reflexivity).

Lemma search_nil {A} (f : matcher A) : f "" = None -> search f "" = None.
Proof. intros H. simpl. now rewrite H. Qed.

(** Goes over a literal text to its end without a match. *)
Ltac search_none := skip_literal; rewrite search_nil by reflexivity.

Lemma aweme_pattern_at_end `{U : Unicode} (ds : str) :
  ds <> "" -> all_in digit ds = true ->
  aweme_pattern_at ("aweme_id=" +:+ ds) = Some ds.
Proof.
  intros Hne Hall. apply PatternFacts.aweme_pattern_implements.
  exists ("aweme_id=" +:+ ds), ds, "".
  rewrite StrFacts.app_nil_r. repeat split; auto.
  exists "aweme_id=". repeat split; simpl; auto.
Qed.

Lemma vid_pattern_at_end `{U : Unicode} (ds : str) :
  ds <> "" -> all_in digit ds = true ->
  vid_pattern_at ("vid=" +:+ ds) = Some ds.
Proof.
  intros Hne Hall. apply PatternFacts.vid_pattern_implements.
  exists ("vid=" +:+ ds), ds, "".
  rewrite StrFacts.app_nil_r. repeat split; auto.
  exists "vid=". repeat split; simpl; auto.
Qed.

(** A key followed by digits anywhere in a str makes the extraction
    succeed. *)
Lemma extract_video_id_key_digits `{U : Unicode} (key pre ds post : str) :
  key = "aweme_id=" \/ key = "vid=" -> run_of digit ds ->
  exists ds', extract_video_id (pre +:+ key +:+ ds +:+ post) = Some ds' /\ run_of digit ds'.
Proof.
  intros Hkey Hrun.
  destruct (extract_video_id (pre +:+ key +:+ ds +:+ post)) as [ds'|] eqn:H.
  - exists ds'. split; [reflexivity|]. exact (extract_video_id_run _ _ H).
  - apply extract_video_id_None in H as (_ & Hna & Hni). exfalso.
    destruct Hkey as [-> | ->]; [apply Hna | apply Hni].
    + exists pre, ("aweme_id=" +:+ ds), ds, post. split; [reflexivity|].
      exists "aweme_id=". repeat split; simpl; auto; apply Hrun.
    + exists pre, ("vid=" +:+ ds), ds, post. split; [reflexivity|].
      exists "vid=". repeat split; simpl; auto; apply Hrun.
Qed.

(** C10: the extraction is a search for raw substrings.  Any str
    that holds [aweme_id=] or [vid=] followed by digits, after any text
    and before any text, yields an identifier; when no path form occurs,
    the digits returned are those after the leftmost [aweme_id=] that has
    digits, and those after the leftmost such [vid=] when [aweme_id=]
    does not occur, each run taken as far as it goes.  So the tail of a
    longer parameter name, a fragment, or a str that is no URL at all
    yields an identifier. *)
Theorem extract_video_id_raw_substring `{U : Unicode} :
  (forall key pre ds post,
      key = "aweme_id=" \/ key = "vid=" -> run_of digit ds ->
      exists ds',
        extract_video_id (pre +:+ key +:+ ds +:+ post) = Some ds' /\ run_of digit ds') /\
  (forall pre ds post,
      run_of digit ds -> starts_in digit post = false ->
      ~ occurs video_form (pre +:+ "aweme_id=" +:+ ds +:+ post) ->
      (forall p1 p2, pre = p1 +:+ p2 -> p2 <> "" ->
                     ~ matches_at aweme_form (p2 +:+ "aweme_id=" +:+ ds +:+ post)) ->
      extract_video_id (pre +:+ "aweme_id=" +:+ ds +:+ post) = Some ds) /\
  (forall pre ds post,
      run_of digit ds -> starts_in digit post = false ->
      ~ occurs video_form (pre +:+ "vid=" +:+ ds +:+ post) ->
      ~ occurs aweme_form (pre +:+ "vid=" +:+ ds +:+ post) ->
      (forall p1 p2, pre = p1 +:+ p2 -> p2 <> "" ->
                     ~ matches_at vid_form (p2 +:+ "vid=" +:+ ds +:+ post)) ->
      extract_video_id (pre +:+ "vid=" +:+ ds +:+ post) = Some ds) /\
  extract_video_id "https://www.douyin.com/?fake_aweme_id=123" = Some "123" /\
  extract_video_id "https://www.douyin.com/#vid=42" = Some "42" /\
  extract_video_id "no url here, covid=19" = Some "19".
Proof.
  split; [exact extract_video_id_key_digits|].
  split; [|split; [|repeat split]].
  - intros pre ds post Hrun Hstop Hnv Hleft.
    apply (extract_by_aweme _ ("aweme_id=" +:+ ds) ds Hnv).
    exists pre, post. repeat split; auto; try apply Hrun.
    exists "aweme_id=". repeat split; simpl; auto; apply Hrun.
  - intros pre ds post Hrun Hstop Hnv Hna Hleft.
    apply (extract_by_vid _ ("vid=" +:+ ds) ds Hnv Hna).
    exists pre, post. repeat split; auto; try apply Hrun.
    exists "vid=". repeat split; simpl; auto; apply Hrun.
  - unfold extract_video_id. search_none.
    skip_literal.
    pose proof (search_here _ _ _ (aweme_pattern_at_end "123" ltac:(discriminate)
                                     (all_in_digit_0_9 "123" eq_refl))) as Hs.
    simpl (_ +:+ _) in Hs. now rewrite Hs.
  - unfold extract_video_id. search_none. search_none.
    skip_literal.
    pose proof (search_here _ _ _ (vid_pattern_at_end "42" ltac:(discriminate)
                                     (all_in_digit_0_9 "42" eq_refl))) as Hs.
    simpl (_ +:+ _) in Hs. now rewrite Hs.
  - unfold extract_video_id. search_none. search_none.
    skip_literal.
    pose proof (search_here _ _ _ (vid_pattern_at_end "19" ltac:(discriminate)
                                     (all_in_digit_0_9 "19" eq_refl))) as Hs.
    simpl (_ +:+ _) in Hs. now rewrite Hs.
Qed.

(** ** Effects: computations only append events *)

Section Tracing.
Context {E : Type}.

Lemma tracing_ret {A} (a : A) : tracing (mret a : M E A).
Proof. intros t. unfold mret, M_ret, raise, lift. simpl. now rewrite app_nil_r. Qed.

Lemma tracing_raise {A} (e : E) : tracing (raise e : M E A).
Proof. intros t. unfold mret, M_ret, raise, lift. simpl. now rewrite app_nil_r. Qed.

Lemma tracing_lift {A} (r : E + A) : tracing (lift r).
Proof. intros t. unfold mret, M_ret, raise, lift. simpl. now rewrite app_nil_r. Qed.

Lemma tracing_call {A} (ev : event) (r : E + A) : tracing (call ev r).
Proof. intros t. reflexivity. Qed.

Lemma tracing_log (level msg : str) : tracing (log level msg : M E unit).
Proof. intros t. reflexivity. Qed.

Lemma tracing_bind {A B} (m : M E A) (f : A -> M E B) :
  tracing m -> (forall a, tracing (f a)) -> tracing (m ≫= f).
Proof.
  intros Hm Hf t. unfold mbind, M_bind. rewrite (Hm t).
  destruct (m []) as [[e|a] t0]; simpl; [reflexivity|].
  rewrite (Hf a (t ++ t0)), (Hf a t0). simpl. now rewrite app_assoc.
Qed.

Lemma tracing_try_except {E' A} (m : M E' A) (h : E' -> M E A) :
  tracing m -> (forall e, tracing (h e)) -> tracing (try_except m h).
Proof.
  intros Hm Hh t. unfold try_except. rewrite (Hm t).
  destruct (m []) as [[e|a] t0]; simpl; [|reflexivity].
  rewrite (Hh e (t ++ t0)), (Hh e t0). simpl. now rewrite app_assoc.
Qed.

Lemma tracing_fst {A} (m : M E A) (t : list event) :
  tracing m -> fst (m t) = fst (m []).
Proof. intros Hm. now rewrite (Hm t). Qed.

Lemma tracing_snd {A} (m : M E A) (t : list event) :
  tracing m -> snd (m t) = t ++ snd (m []).
Proof. intros Hm. now rewrite (Hm t). Qed.

End Tracing.

Create HintDb tracing.
#[local] Hint Resolve tracing_ret tracing_raise tracing_lift tracing_call tracing_log : tracing.

(** Goes through a computation along its binds, handlers and branches. *)
Ltac tracing_step :=
  match goal with
  | |- tracing (mbind _ _) => apply tracing_bind
  | |- tracing (try_except _ _) => apply tracing_try_except
  | |- tracing (if ?b then _ else _) => destruct b
  | |- tracing (match ?x with _ => _ end) => destruct x
  | |- forall _, _ => intro
  | |- _ => solve [auto with tracing]
  end.
Ltac solve_tracing := repeat tracing_step.

Lemma follow_redirect_tracing w short_url : tracing (follow_redirect w short_url).
Proof. unfold follow_redirect. solve_tracing. Qed.

Lemma httpx_attempt_tracing w url video_id : tracing (httpx_attempt w url video_id).
Proof. unfold httpx_attempt. solve_tracing. Qed.

Lemma fetch_data_with_httpx_tracing w url video_id :
  tracing (fetch_data_with_httpx w url video_id).
Proof.
  unfold fetch_data_with_httpx.
  apply tracing_try_except; [apply httpx_attempt_tracing | solve_tracing].
Qed.

Lemma handle_response_tracing {E} (vd : option VideoData) (r : PwResponse) :
  tracing (handle_response (E:=E) vd r).
Proof. unfold handle_response. solve_tracing. Qed.

Lemma observe_tracing {E} (rs : list PwResponse) (vd : option VideoData) :
  tracing (observe (E:=E) vd rs).
Proof.
  revert vd. induction rs as [|r rs IH]; intros vd; simpl.
  - solve_tracing.
  - apply tracing_bind; [apply handle_response_tracing | intros; apply IH].
Qed.

#[local] Hint Resolve follow_redirect_tracing httpx_attempt_tracing
  fetch_data_with_httpx_tracing handle_response_tracing observe_tracing : tracing.

Lemma playwright_session_tracing `{U : Unicode} w url : tracing (playwright_session w url).
Proof. unfold playwright_session. solve_tracing. Qed.

Lemma get_data_with_playwright_tracing `{U : Unicode} w url : tracing (get_data_with_playwright w url).
Proof.
  unfold get_data_with_playwright.
  destruct (negb _); [solve_tracing|].
  apply tracing_try_except; [apply playwright_session_tracing | solve_tracing].
Qed.

#[local] Hint Resolve playwright_session_tracing get_data_with_playwright_tracing : tracing.

Lemma fetch_tiers_tracing `{U : Unicode} w url video_id : tracing (fetch_tiers w url video_id).
Proof. unfold fetch_tiers. solve_tracing. Qed.

#[local] Hint Resolve fetch_tiers_tracing : tracing.

Lemma get_douyin_info_tracing `{U : Unicode} w url : tracing (get_douyin_info w url).
Proof. unfold get_douyin_info. solve_tracing. Qed.

(** ** [follow_redirect] *)

(** C6: [follow_redirect] never raises; when the request raises
    (timeout, DNS failure, refused connection) it returns the input
    unchanged, and when the request is answered it returns the str of
    the final URL. *)
Theorem follow_redirect_soft_fail (w : World) (short_url : str) (t : list event) :
  (exists u, fst (follow_redirect w short_url t) = Ok u) /\
  (forall e, httpx_get w true [] short_url = Raise e ->
             fst (follow_redirect w short_url t) = Ok short_url) /\
  (forall response, httpx_get w true [] short_url = Ok response ->
                    fst (follow_redirect w short_url t) = Ok (resp_url response)).
Proof.
  unfold follow_redirect, try_except, call, log, mbind, M_bind, mret, M_ret.
  destruct (httpx_get w true [] short_url) as [e|response]; simpl.
  - split; [now exists short_url|]. split; [reflexivity | discriminate].
  - split; [now exists (resp_url response)|]. split; [discriminate | now intros ? [= <-]].
Qed.

(** ** [fetch_data_with_httpx] *)

Lemma has_aweme_detail_present (d : gmap str pyval) (detail : pyval) :
  d !! "aweme_detail" = Some detail -> has_aweme_detail (PDict d) = Ok true.
Proof.
  intros H. unfold has_aweme_detail, truthy, py_in.
  rewrite bool_decide_eq_false_2; simpl.
  - rewrite bool_decide_eq_true_2; [reflexivity | now rewrite H].
  - intros ->. now rewrite lookup_empty in H.
Qed.

Lemma has_aweme_detail_missing (d : gmap str pyval) :
  d !! "aweme_detail" = None -> has_aweme_detail (PDict d) = Ok false.
Proof.
  intros H. unfold has_aweme_detail, truthy, py_in.
  destruct (negb _); [|reflexivity].
  rewrite bool_decide_eq_false_2; [reflexivity|].
  rewrite H. now intros [x Hx].
Qed.

Lemma video_data_of_well_formed (detail a d u n : pyval) :
  well_formed_detail detail a d u n ->
  video_data_of_detail detail = Ok (mkVideoData a d u n).
Proof.
  intros (dd & video & pa & rest & au & -> & Ha & Hd & Hv & Hpa & Hul & Hau & Hn).
  unfold video_data_of_detail, getitem, getitem0, mbind, result_bind.
  now rewrite Ha, Hd, Hv, Hpa, Hul, Hau, Hn.
Qed.


Section Httpx.
Variables (w : World) (url video_id : str) (t : list event).

Let api_url := detail_api_url video_id.

Lemma httpx_attempt_raised (e : exn) :
  httpx_get w false httpx_headers api_url = Raise e ->
  fst (httpx_attempt w url video_id t) = Raise e.
Proof.
  intros H. unfold httpx_attempt, call, mbind, M_bind. fold api_url.
  now rewrite H.
Qed.

Lemma httpx_attempt_not_200 (response : Response) :
  httpx_get w false httpx_headers api_url = Ok response ->
  resp_status_code response <> 200%Z ->
  fst (httpx_attempt w url video_id t) = Ok (unavailable_data url video_id).
Proof.
  intros H Hst. unfold httpx_attempt, call, mbind, M_bind. fold api_url.
  rewrite H. apply Z.eqb_neq in Hst. now rewrite Hst.
Qed.

Lemma httpx_attempt_bad_json (response : Response) (e : exn) :
  httpx_get w false httpx_headers api_url = Ok response ->
  resp_status_code response = 200%Z ->
  resp_json response = Raise e ->
  fst (httpx_attempt w url video_id t) = Raise e.
Proof.
  intros H Hst Hj. unfold httpx_attempt, call, lift, mbind, M_bind. fold api_url.
  rewrite H, Hst, Hj. reflexivity.
Qed.

Lemma httpx_attempt_no_detail (response : Response) (d : gmap str pyval) :
  httpx_get w false httpx_headers api_url = Ok response ->
  resp_status_code response = 200%Z ->
  resp_json response = Ok (PDict d) ->
  d !! "aweme_detail" = None ->
  fst (httpx_attempt w url video_id t) = Ok (unavailable_data url video_id).
Proof.
  intros H Hst Hj Hd. unfold httpx_attempt, call, lift, mbind, M_bind. fold api_url.
  rewrite H, Hst, Hj. simpl. now rewrite (has_aweme_detail_missing d Hd).
Qed.

Lemma httpx_attempt_detail (response : Response) (d : gmap str pyval) (detail : pyval) :
  httpx_get w false httpx_headers api_url = Ok response ->
  resp_status_code response = 200%Z ->
  resp_json response = Ok (PDict d) ->
  d !! "aweme_detail" = Some detail ->
  fst (httpx_attempt w url video_id t) = video_data_of_detail detail.
Proof.
  intros H Hst Hj Hd. unfold httpx_attempt, call, lift, mbind, M_bind. fold api_url.
  rewrite H, Hst, Hj. simpl. rewrite (has_aweme_detail_present d detail Hd).
  unfold getitem. now rewrite Hd.
Qed.

(** The [except] clause turns whatever the body raises into the second
    placeholder, and lets a returned record through. *)
Lemma fetch_data_with_httpx_result :
  fst (fetch_data_with_httpx w url video_id t) =
  match fst (httpx_attempt w url video_id t) with
  | inl _ => Ok (error_data url video_id)
  | inr vd => Ok vd
  end.
Proof.
  unfold fetch_data_with_httpx, try_except.
  destruct (httpx_attempt w url video_id t) as [[e|vd] t']; reflexivity.
Qed.

End Httpx.

(** C3: [fetch_data_with_httpx] never raises.  On a status other than
    200, and on a 200 whose body is an object without the key
    [aweme_detail], it returns the input id, "Video Description
    Unavailable", the input URL and "Unknown"; when anything raises during
    the fetch (the request, the decoding of the body, or any other step of
    the attempt) it returns the same record with "Error retrieving video
    details"; the two descriptions differ. *)
Theorem fetch_data_with_httpx_never_raises
    (w : World) (url video_id : str) (t : list event) :
  let api_url := detail_api_url video_id in
  let unavailable :=
    mkVideoData (PStr video_id) (PStr "Video Description Unavailable") (PStr url) (PStr "Unknown") in
  let failed :=
    mkVideoData (PStr video_id) (PStr "Error retrieving video details") (PStr url) (PStr "Unknown") in
  (exists vd, fst (fetch_data_with_httpx w url video_id t) = Ok vd) /\
  (forall response,
      httpx_get w false httpx_headers api_url = Ok response ->
      resp_status_code response <> 200%Z ->
      fst (fetch_data_with_httpx w url video_id t) = Ok unavailable) /\
  (forall response d,
      httpx_get w false httpx_headers api_url = Ok response ->
      resp_status_code response = 200%Z ->
      resp_json response = Ok (PDict d) ->
      d !! "aweme_detail" = None ->
      fst (fetch_data_with_httpx w url video_id t) = Ok unavailable) /\
  (forall e,
      fst (httpx_attempt w url video_id t) = Raise e ->
      fst (fetch_data_with_httpx w url video_id t) = Ok failed) /\
  (forall e,
      httpx_get w false httpx_headers api_url = Raise e ->
      fst (fetch_data_with_httpx w url video_id t) = Ok failed) /\
  (forall response e,
      httpx_get w false httpx_headers api_url = Ok response ->
      resp_status_code response = 200%Z ->
      resp_json response = Raise e ->
      fst (fetch_data_with_httpx w url video_id t) = Ok failed) /\
  desc unavailable <> desc failed.
Proof.
  intros api_url unavailable failed.
  rewrite fetch_data_with_httpx_result.
  repeat split.
  - destruct (fst (httpx_attempt w url video_id t)); eauto.
  - intros response H Hst. now rewrite (httpx_attempt_not_200 _ _ _ _ response H Hst).
  - intros response d H Hst Hj Hd.
    now rewrite (httpx_attempt_no_detail _ _ _ _ response d H Hst Hj Hd).
  - intros e H. now rewrite H.
  - intros e H. now rewrite (httpx_attempt_raised _ _ _ _ e H).
  - intros response e H Hst Hj.
    now rewrite (httpx_attempt_bad_json _ _ _ _ response e H Hst Hj).
  - simpl. discriminate.
Qed.

(** C4: on a 200 whose body is an object holding an [aweme_detail] with
    the expected nested structure, [fetch_data_with_httpx] returns the
    record made of [aweme_detail.aweme_id], [aweme_detail.desc], the first
    element of [aweme_detail.video.play_addr.url_list] and
    [aweme_detail.author.nickname]. *)
Theorem fetch_data_with_httpx_detail
    (w : World) (url video_id : str) (t : list event)
    (response : Response) (data : gmap str pyval) (detail a d u n : pyval) :
  httpx_get w false httpx_headers (detail_api_url video_id) = Ok response ->
  resp_status_code response = 200%Z ->
  resp_json response = Ok (PDict data) ->
  data !! "aweme_detail" = Some detail ->
  well_formed_detail detail a d u n ->
  fst (fetch_data_with_httpx w url video_id t) = Ok (mkVideoData a d u n).
Proof.
  intros H Hst Hj Hd Hwf.
  rewrite fetch_data_with_httpx_result.
  rewrite (httpx_attempt_detail _ _ _ _ response data detail H Hst Hj Hd).
  now rewrite (video_data_of_well_formed _ _ _ _ _ Hwf).
Qed.


(** ** The request handler *)

Lemma fetch_data_with_httpx_returns (w : World) (url video_id : str) (t : list event) :
  exists vd, fst (fetch_data_with_httpx w url video_id t) = Ok vd.
Proof.
  rewrite fetch_data_with_httpx_result.
  destruct (fst (httpx_attempt w url video_id t)); eauto.
Qed.

(** The httpx fetcher performs one GET and never touches the browser. *)
Lemma fetch_data_with_httpx_no_browser (w : World) (url video_id : str) (t : list event) :
  filter is_browser (snd (fetch_data_with_httpx w url video_id t)) = filter is_browser t.
Proof.
  rewrite (tracing_snd _ t (fetch_data_with_httpx_tracing w url video_id)).
  rewrite filter_app.
  assert (H : filter is_browser (snd (fetch_data_with_httpx w url video_id [])) = []).
  { unfold fetch_data_with_httpx, httpx_attempt, try_except, call, lift, log,
      mbind, M_bind, mret, M_ret.
    destruct (httpx_get w false httpx_headers (detail_api_url video_id)) as [e|r];
      simpl; [reflexivity|].
    destruct (resp_status_code r =? 200)%Z; [|reflexivity].
    destruct (resp_json r) as [e|data]; simpl; [reflexivity|].
    destruct (has_aweme_detail data) as [e|[|]]; simpl; try reflexivity.
    destruct (getitem data "aweme_detail") as [e|detail]; simpl; [reflexivity|].
    destruct (video_data_of_detail detail); reflexivity. }
  rewrite H. apply app_nil_r.
Qed.

Lemma truthy_id_extract `{U : Unicode} (url video_id : str) :
  extract_video_id url = Some video_id ->
  truthy_id (extract_video_id url) = Some video_id.
Proof.
  intros H. rewrite H. unfold truthy_id.
  destruct (extract_video_id_run _ _ H) as [Hne _].
  destruct (StrFacts.str_eqb_spec video_id ""); [contradiction | reflexivity].
Qed.

(** The first steps of the handler: the identifier is looked for in
    [resolved_url], after at most one GET and no use of the browser. *)
Lemma get_douyin_info_resolves `{U : Unicode} (w : World) (raw : str) (t : list event) :
  exists t1,
    get_douyin_info w raw t =
    match truthy_id (extract_video_id (resolved_url w raw)) with
    | None => (Raise (HTTPException 400 "Could not extract video ID from URL"), t1)
    | Some video_id => fetch_tiers w (resolved_url w raw) video_id t1
    end /\
    filter is_browser t1 = filter is_browser t /\
    (contains "v.douyin.com" (clean_url raw) = false -> t1 = t).
Proof.
  unfold get_douyin_info, resolved_url.
  destruct (contains "v.douyin.com" (clean_url raw)).
  - unfold follow_redirect, try_except, call, log, raise, mbind, M_bind, mret, M_ret.
    destruct (httpx_get w true [] (clean_url raw)) as [e|response]; simpl.
    + exists ((t ++ [HttpxGet true (clean_url raw)])
                ++ [Log "ERROR" "Error following redirect: "]).
      split; [now destruct (truthy_id _)|]. split; [|discriminate].
      rewrite <- app_assoc, filter_app. simpl. apply app_nil_r.
    + exists (t ++ [HttpxGet true (clean_url raw)]).
      split; [now destruct (truthy_id _)|]. split; [|discriminate].
      rewrite filter_app. simpl. apply app_nil_r.
  - exists t. unfold raise, mbind, M_bind, mret, M_ret.
    split; [now destruct (truthy_id _) | auto].
Qed.

Lemma fetch_tiers_absent `{U : Unicode} (w : World) (url video_id : str) (t : list event) :
  PLAYWRIGHT_AVAILABLE w = false ->
  fetch_tiers w url video_id t = fetch_data_with_httpx w url video_id t.
Proof.
  intros H. unfold fetch_tiers, mbind, M_bind, mret, M_ret. now rewrite H.
Qed.

Lemma get_data_with_playwright_raises `{U : Unicode} (w : World) (url : str) (t : list event) (e : pw_error) :
  PLAYWRIGHT_AVAILABLE w = true ->
  fst (playwright_session w url []) = Raise e ->
  fst (get_data_with_playwright w url t)
  = Raise (HTTPException 500 ("Playwright error: " +:+ pw_str e)).
Proof.
  intros Hav He.
  rewrite <- (tracing_fst _ t (playwright_session_tracing w url)) in He.
  unfold get_data_with_playwright, try_except, log, raise, mbind, M_bind.
  rewrite Hav. simpl.
  destruct (playwright_session w url t) as [[e'|vd] t']; simpl in *; congruence.
Qed.

Lemma fetch_tiers_fallback `{U : Unicode} (w : World) (url video_id : str) (t : list event) (e : exn) :
  PLAYWRIGHT_AVAILABLE w = true ->
  fst (get_data_with_playwright w url t) = Raise e ->
  exists t1, fetch_tiers w url video_id t = fetch_data_with_httpx w url video_id t1.
Proof.
  intros Hav He.
  unfold fetch_tiers, try_except, log, mbind, M_bind, mret, M_ret. rewrite Hav.
  destruct (get_data_with_playwright w url t) as [[e'|vd] t']; simpl in *;
    [eauto | discriminate].
Qed.

Lemma fetch_tiers_returns `{U : Unicode} (w : World) (url video_id : str) (t : list event) :
  exists vd, fst (fetch_tiers w url video_id t) = Ok vd.
Proof.
  unfold fetch_tiers, try_except, log, mbind, M_bind, mret, M_ret.
  destruct (PLAYWRIGHT_AVAILABLE w); [|apply fetch_data_with_httpx_returns].
  destruct (get_data_with_playwright w url t) as [[e|vd] t']; simpl;
    [apply fetch_data_with_httpx_returns | eauto].
Qed.

(** The handler, step by step: the identifier is looked for in
    [resolved_url] after the events [resolve_events], and nothing else has
    happened by then. *)
Lemma get_douyin_info_steps `{U : Unicode} (w : World) (raw : str) (t : list event) :
  get_douyin_info w raw t =
  match truthy_id (extract_video_id (resolved_url w raw)) with
  | None => (Raise (HTTPException 400 "Could not extract video ID from URL"),
             t ++ resolve_events w raw)
  | Some video_id => fetch_tiers w (resolved_url w raw) video_id (t ++ resolve_events w raw)
  end.
Proof.
  unfold get_douyin_info, resolved_url, resolve_events.
  destruct (contains "v.douyin.com" (clean_url raw)).
  - unfold follow_redirect, try_except, call, log, raise, mbind, M_bind, mret, M_ret.
    destruct (httpx_get w true [] (clean_url raw)) as [e|response]; simpl.
    + rewrite <- app_assoc. simpl. now destruct (truthy_id _).
    + now destruct (truthy_id _).
  - unfold raise, mbind, M_bind, mret, M_ret. rewrite app_nil_r.
    now destruct (truthy_id _).
Qed.

Lemma resolve_events_no_browser (w : World) (raw : str) :
  filter is_browser (resolve_events w raw) = [].
Proof.
  unfold resolve_events. destruct (contains _ _); [|reflexivity].
  now destruct (httpx_get w true [] (clean_url raw)).
Qed.

Lemma get_data_with_playwright_raises_exact `{U : Unicode}
    (w : World) (url : str) (t : list event) (e : pw_error) :
  PLAYWRIGHT_AVAILABLE w = true ->
  fst (playwright_session w url []) = Raise e ->
  get_data_with_playwright w url t
  = (Raise (HTTPException 500 ("Playwright error: " +:+ pw_str e)),
     t ++ snd (playwright_session w url []) ++ [Log "ERROR" "Playwright error: "]).
Proof.
  intros Hav He. pose proof (playwright_session_tracing w url t) as Htr.
  unfold get_data_with_playwright, try_except, log, raise, mbind, M_bind.
  rewrite Hav. simpl. rewrite Htr, He. simpl. now rewrite <- app_assoc.
Qed.

Lemma fetch_tiers_fallback_exact `{U : Unicode}
    (w : World) (url video_id : str) (t : list event) (e : pw_error) :
  PLAYWRIGHT_AVAILABLE w = true ->
  fst (playwright_session w url []) = Raise e ->
  fetch_tiers w url video_id t
  = fetch_data_with_httpx w url video_id (t ++ failed_browser_events w url).
Proof.
  intros Hav He. pose proof (playwright_session_tracing w url t) as Htr.
  unfold fetch_tiers, failed_browser_events, get_data_with_playwright, try_except,
    log, raise, mbind, M_bind, mret, M_ret.
  rewrite Hav. simpl. rewrite Htr, He. simpl. now rewrite <- !app_assoc.
Qed.

(** C7: when no identifier can be extracted from the cleaned and
    resolved URL the handler raises the [HTTPException] 400, a client
    error, and by then it has done nothing but resolve the URL: at most
    the one request to the short-link host.  For an input that does not
    name that host, such as "not a url", it has made no outbound call,
    and added no event at all. *)
Theorem get_douyin_info_no_identifier `{U : Unicode} (w : World) (raw : str) (t : list event) :
  (extract_video_id (resolved_url w raw) = None ->
   get_douyin_info w raw t
   = (Raise (HTTPException 400 "Could not extract video ID from URL"),
      t ++ resolve_events w raw) /\
   (forall coerces, http_status coerces (fst (get_douyin_info w raw t)) = 400%Z) /\
   filter is_outbound (snd (get_douyin_info w raw t))
   = filter is_outbound t
     ++ (if contains "v.douyin.com" (clean_url raw)
         then [HttpxGet true (clean_url raw)] else []) /\
   (contains "v.douyin.com" (clean_url raw) = false ->
    get_douyin_info w raw t
    = (Raise (HTTPException 400 "Could not extract video ID from URL"), t))) /\
  get_douyin_info w "not a url" t
  = (Raise (HTTPException 400 "Could not extract video ID from URL"), t).
Proof.
  split; [|reflexivity].
  intros Hnone. rewrite get_douyin_info_steps, Hnone. simpl.
  split; [reflexivity|]. split; [reflexivity|]. split.
  - rewrite filter_app. f_equal. unfold resolve_events.
    destruct (contains _ _); [|reflexivity].
    now destruct (httpx_get w true [] (clean_url raw)).
  - intros Hc. unfold resolve_events. rewrite Hc. now rewrite app_nil_r.
Qed.

(** C8: with an identifier in hand the handler always returns a record.
    Without the browser capability it is the run of
    [fetch_data_with_httpx] after the URL was resolved, and nothing else:
    no call of the browser fetcher, no event of the browser.  With the
    capability, when the Playwright sequence raises, it is the run of
    [fetch_data_with_httpx] after the failed browser tier, and the result
    of that fetcher is returned. *)
Theorem get_douyin_info_falls_back `{U : Unicode}
    (w : World) (raw video_id : str) (t : list event) :
  extract_video_id (resolved_url w raw) = Some video_id ->
  (exists vd, fst (get_douyin_info w raw t) = Ok vd) /\
  (PLAYWRIGHT_AVAILABLE w = false ->
   get_douyin_info w raw t
   = fetch_data_with_httpx w (resolved_url w raw) video_id (t ++ resolve_events w raw) /\
   fst (get_douyin_info w raw t)
   = fst (fetch_data_with_httpx w (resolved_url w raw) video_id []) /\
   filter is_browser (snd (get_douyin_info w raw t)) = filter is_browser t /\
   exists t1, get_douyin_info w raw t
              = fetch_data_with_httpx w (resolved_url w raw) video_id t1) /\
  (PLAYWRIGHT_AVAILABLE w = true ->
   forall e, fst (playwright_session w (resolved_url w raw) []) = Raise e ->
             get_douyin_info w raw t
             = fetch_data_with_httpx w (resolved_url w raw) video_id
                 (t ++ resolve_events w raw
                    ++ failed_browser_events w (resolved_url w raw)) /\
             fst (get_douyin_info w raw t)
             = fst (fetch_data_with_httpx w (resolved_url w raw) video_id [])).
Proof.
  intros Hid.
  rewrite get_douyin_info_steps, (truthy_id_extract _ _ Hid).
  split; [apply fetch_tiers_returns|]. split.
  - intros Hav. rewrite (fetch_tiers_absent _ _ _ _ Hav).
    split; [reflexivity|]. split; [apply tracing_fst, fetch_data_with_httpx_tracing|].
    split; [|eauto].
    rewrite fetch_data_with_httpx_no_browser, filter_app, resolve_events_no_browser.
    apply app_nil_r.
  - intros Hav e He.
    rewrite (fetch_tiers_fallback_exact w _ video_id _ e Hav He), <- app_assoc.
    split; [reflexivity | apply tracing_fst, fetch_data_with_httpx_tracing].
Qed.

(** C1, amended: when [get_data_with_playwright] is called and the
    Playwright sequence raises, it logs the error and raises an
    [HTTPException] 500 with the detail "Playwright error: ..."; the
    handler catches it, logs the warning "Playwright method failed,
    falling back to httpx" and runs [fetch_data_with_httpx], whose record
    it returns: the response is not a 500 with an error detail.  The
    handler itself raises nothing but the 400 of a missing identifier. *)
Theorem playwright_failure_falls_back `{U : Unicode}
    (w : World) (raw video_id : str) (t : list event) (e : pw_error) :
  extract_video_id (resolved_url w raw) = Some video_id ->
  PLAYWRIGHT_AVAILABLE w = true ->
  fst (playwright_session w (resolved_url w raw) []) = Raise e ->
  (forall t',
      get_data_with_playwright w (resolved_url w raw) t'
      = (Raise (HTTPException 500 ("Playwright error: " +:+ pw_str e)),
         t' ++ snd (playwright_session w (resolved_url w raw) [])
            ++ [Log "ERROR" "Playwright error: "])) /\
  get_douyin_info w raw t
  = fetch_data_with_httpx w (resolved_url w raw) video_id
      (t ++ resolve_events w raw
         ++ snd (playwright_session w (resolved_url w raw) [])
         ++ [Log "ERROR" "Playwright error: ";
             Log "WARNING" "Playwright method failed, falling back to httpx: "]) /\
  (exists vd,
      fst (get_douyin_info w raw t) = Ok vd /\
      fst (fetch_data_with_httpx w (resolved_url w raw) video_id []) = Ok vd) /\
  ~ responds_500_with_detail (fst (get_douyin_info w raw t)) /\
  (forall w' raw' t',
      (exists vd, fst (get_douyin_info w' raw' t') = Ok vd) \/
      fst (get_douyin_info w' raw' t')
      = Raise (HTTPException 400 "Could not extract video ID from URL")).
Proof.
  intros Hid Hav He.
  split; [intros t'; now apply get_data_with_playwright_raises_exact|].
  assert (Hrun : get_douyin_info w raw t
                 = fetch_data_with_httpx w (resolved_url w raw) video_id
                     (t ++ resolve_events w raw
                        ++ failed_browser_events w (resolved_url w raw))).
  { rewrite get_douyin_info_steps, (truthy_id_extract _ _ Hid).
    rewrite (fetch_tiers_fallback_exact w _ video_id _ e Hav He).
    now rewrite <- app_assoc. }
  assert (Hfst : fst (get_douyin_info w raw t)
                 = fst (fetch_data_with_httpx w (resolved_url w raw) video_id []))
    by (rewrite Hrun; apply tracing_fst, fetch_data_with_httpx_tracing).
  destruct (fetch_data_with_httpx_returns w (resolved_url w raw) video_id []) as [vd Hvd].
  split; [exact Hrun|]. split; [exists vd; now rewrite Hfst|]. split.
  - intros [detail Hd]. rewrite Hfst, Hvd in Hd. discriminate.
  - intros w' raw' t'. rewrite get_douyin_info_steps.
    destruct (truthy_id _) as [id|]; [left | right; reflexivity].
    apply fetch_tiers_returns.
Qed.

(** * Further properties of the pipeline *)

(** ** Normalisation and extraction *)

Lemma all_in_app (c : char -> bool) (a b : str) :
  all_in c (a +:+ b) = all_in c a && all_in c b.
Proof.
  induction a as [|x a IH]; simpl; [reflexivity|].
  rewrite IH. now destruct (c x).
Qed.

Lemma strip_prefix_all_in (c : char -> bool) (p s r : str) :
  strip_prefix p s = Some r -> all_in c s = true ->
  all_in c p = true /\ all_in c r = true.
Proof.
  intros Hp Hs. apply StrFacts.strip_prefix_Some in Hp as ->.
  rewrite all_in_app in Hs. now apply andb_true_iff in Hs.
Qed.

(** A literal with a character outside the class does not open a text
    made of the class. *)
Lemma lit_outside_class {A} (c : char -> bool) (p : str) (k : matcher A) (s : str) :
  all_in c p = false -> all_in c s = true -> lit p k s = None.
Proof.
  intros Hp Hs. unfold lit.
  destruct (strip_prefix p s) as [r|] eqn:H; [|reflexivity].
  destruct (strip_prefix_all_in c p s r H Hs) as [Hp' _]. congruence.
Qed.

Lemma search_in_class {A} (c : char -> bool) (f : matcher A) (s : str) :
  (forall s', all_in c s' = true -> f s' = None) ->
  all_in c s = true -> search f s = None.
Proof.
  intros Hf. induction s as [|x s IH]; intros Hs.
  - simpl. now rewrite (Hf "" Hs).
  - simpl. rewrite (Hf _ Hs). simpl in Hs.
    apply andb_true_iff in Hs as [_ Hs]. now apply IH.
Qed.



Section InClass.
Variable c : char -> bool.
Hypothesis no_slash : all_in c "/" = false.
Hypothesis no_underscore : all_in c "_" = false.
Hypothesis no_equals : all_in c "=" = false.

Lemma video_pattern_in_class `{U : Unicode} (s : str) :
  all_in c s = true -> video_pattern_at s = None.
Proof.
  intros Hs. unfold video_pattern_at.
  now rewrite (lit_outside_class c "/" _ s no_slash Hs).
Qed.

Lemma aweme_pattern_in_class `{U : Unicode} (s : str) :
  all_in c s = true -> aweme_pattern_at s = None.
Proof.
  intros Hs. unfold aweme_pattern_at.
  rewrite (lit_outside_class c "aweme_id="); [reflexivity | | exact Hs].
  change "aweme_id=" with ("aweme" +:+ "_" +:+ "id=").
  rewrite !all_in_app, no_underscore. now rewrite andb_false_r.
Qed.

Lemma vid_pattern_in_class `{U : Unicode} (s : str) :
  all_in c s = true -> vid_pattern_at s = None.
Proof.
  intros Hs. unfold vid_pattern_at.
  rewrite (lit_outside_class c "vid="); [reflexivity | | exact Hs].
  change "vid=" with ("vid" +:+ "=").
  rewrite all_in_app, no_equals. now rewrite andb_false_r.
Qed.

(** After a slash, a text of the class is no path form. *)
Lemma video_pattern_after_slash `{U : Unicode} (s : str) :
  all_in c s = true -> video_pattern_at ("/" +:+ s) = None.
Proof.
  intros Hs. unfold video_pattern_at. rewrite PatternFacts.video_pattern_branches.
  unfold lit.
  change (strip_prefix "/video/" ("/" +:+ s)) with (strip_prefix "video/" s).
  change (strip_prefix "/note/" ("/" +:+ s)) with (strip_prefix "note/" s).
  destruct (strip_prefix "video/" s) as [r|] eqn:H1.
  { destruct (strip_prefix_all_in c _ _ _ H1 Hs) as [H _].
    change "video/" with ("video" +:+ "/") in H.
    rewrite all_in_app, no_slash, andb_false_r in H. discriminate. }
  destruct (strip_prefix "note/" s) as [r|] eqn:H2; [|reflexivity].
  destruct (strip_prefix_all_in c _ _ _ H2 Hs) as [H _].
  change "note/" with ("note" +:+ "/") in H.
  rewrite all_in_app, no_slash, andb_false_r in H. discriminate.
Qed.

End InClass.

Lemma first_match_whole (P : pattern) (m tok : str) :
  form P m tok -> first_match P m m tok.
Proof.
  intros Hform. exists "", "". repeat split; auto.
  - simpl. now rewrite StrFacts.app_nil_r.
  - intros p1 p2 Hp Hne. destruct p1, p2; simpl in Hp; congruence.
Qed.

(** X1: normalising twice is normalising once. *)
Theorem clean_url_idempotent (raw : str) :
  clean_url (clean_url raw) = clean_url raw.
Proof.
  destruct (search short_link_at raw) as [m|] eqn:H.
  - assert (Hraw : clean_url raw = m) by (unfold clean_url; now rewrite H).
    rewrite Hraw.
    apply (search_first_match _ _ _ PatternFacts.short_link_implements) in H
      as (m' & tok & (pre & post & _ & Hform & _) & ->).
    assert (Hm : search short_link_at m' = Some m').
    { apply (search_first_match _ _ _ PatternFacts.short_link_implements).
      exists m', tok. split; [now apply first_match_whole | reflexivity]. }
    unfold clean_url. now rewrite Hm.
  - assert (Hraw : clean_url raw = raw)
      by (unfold clean_url; rewrite H; now destruct (startswith raw _)).
    now rewrite !Hraw.
Qed.

Lemma clean_url_form (raw : str) :
  occurs short_link raw -> exists tok, form short_link (clean_url raw) tok.
Proof.
  intros Hocc.
  destruct (search_occurs _ _ _ PatternFacts.short_link_implements raw Hocc)
    as (m & tok & (pre & post & _ & Hform & _) & Hs).
  unfold clean_url. rewrite Hs. now exists tok.
Qed.

Lemma short_link_names_host (m tok : str) :
  form short_link m tok -> contains "v.douyin.com" m = true.
Proof.
  intros (p & Hp & -> & _). apply StrFacts.contains_true.
  simpl in Hp. destruct Hp as [<- | [<- | []]].
  - now exists "https://", ("/" +:+ tok).
  - now exists "http://", ("/" +:+ tok).
Qed.

(** X2: when the input holds a short link, the first thing the handler
    does is one GET of the cleaned link, with redirects followed. *)
Theorem get_douyin_info_resolves_short_link `{U : Unicode} (w : World) (raw : str) (t : list event) :
  occurs short_link raw ->
  exists evs, snd (get_douyin_info w raw t) = t ++ HttpxGet true (clean_url raw) :: evs.
Proof.
  intros Hocc. destruct (clean_url_form raw Hocc) as [tok Hform].
  pose proof (short_link_names_host _ _ Hform) as Hhost.
  unfold get_douyin_info. rewrite Hhost.
  unfold follow_redirect, try_except, call, log, mbind, M_bind, mret, M_ret.
  assert (Hk : forall url, tracing
            (match truthy_id (extract_video_id url) with
             | Some video_id => fetch_tiers w url video_id
             | None => raise (HTTPException 400 "Could not extract video ID from URL")
             end)).
  { intros url. destruct (truthy_id _); auto using fetch_tiers_tracing, tracing_raise. }
  destruct (httpx_get w true [] (clean_url raw)) as [e|response]; simpl.
  - rewrite (tracing_snd _ _ (Hk (clean_url raw))).
    rewrite <- !app_assoc. simpl. eauto.
  - rewrite (tracing_snd _ _ (Hk (resp_url response))).
    rewrite <- !app_assoc. simpl. eauto.
Qed.

(** A short link itself carries no identifier. *)
Lemma short_link_no_identifier `{U : Unicode} (m tok : str) :
  form short_link m tok -> extract_video_id m = None.
Proof.
  intros (p & Hp & -> & _ & Hall).
  assert (Hv : search video_pattern_at tok = None)
    by (apply (search_in_class alnum); [apply video_pattern_in_class; reflexivity | exact Hall]).
  assert (Ha : search aweme_pattern_at tok = None)
    by (apply (search_in_class alnum); [apply aweme_pattern_in_class; reflexivity | exact Hall]).
  assert (Hi : search vid_pattern_at tok = None)
    by (apply (search_in_class alnum); [apply vid_pattern_in_class; reflexivity | exact Hall]).
  pose proof (video_pattern_after_slash alnum eq_refl tok Hall) as Hslash.
  simpl (_ +:+ _) in Hslash.
  unfold extract_video_id.
  simpl in Hp. destruct Hp as [<- | [<- | []]]; simpl (_ +:+ _).
  - skip_literal. rewrite (search_cons_None _ _ _ Hslash). rewrite Hv.
    skip_literal. rewrite Ha. skip_literal. now rewrite Hi.
  - skip_literal. rewrite (search_cons_None _ _ _ Hslash). rewrite Hv.
    skip_literal. rewrite Ha. skip_literal. now rewrite Hi.
Qed.

(** X3: when the input holds a short link and the request that should
    resolve it raises, the handler raises the 400: the unresolved link
    never yields an identifier. *)
Theorem get_douyin_info_unresolved_short_link `{U : Unicode}
    (w : World) (raw : str) (t : list event) (e : exn) :
  occurs short_link raw ->
  httpx_get w true [] (clean_url raw) = Raise e ->
  fst (get_douyin_info w raw t)
  = Raise (HTTPException 400 "Could not extract video ID from URL").
Proof.
  intros Hocc He. destruct (clean_url_form raw Hocc) as [tok Hform].
  destruct (get_douyin_info_resolves w raw t) as (t1 & -> & _).
  assert (Hres : resolved_url w raw = clean_url raw).
  { unfold resolved_url. rewrite (short_link_names_host _ _ Hform). now rewrite He. }
  rewrite Hres, (short_link_no_identifier _ _ Hform). reflexivity.
Qed.

Lemma first_match_run_inside (P : pattern) (url m tok : str) :
  first_match P url m tok -> run_of (cls P) tok /\ contains tok url = true.
Proof.
  intros (pre & post & -> & (p & _ & -> & Hrun) & _).
  split; [exact Hrun|].
  apply StrFacts.contains_true. exists (pre +:+ p), post.
  now rewrite !StrFacts.app_assoc.
Qed.

(** X4: an identifier that [extract_video_id] returns is a non-empty
    run of digits that stands in the URL. *)
Theorem extract_video_id_digits `{U : Unicode} (url ds : str) :
  extract_video_id url = Some ds ->
  ds <> "" /\ all_in digit ds = true /\ contains ds url = true.
Proof.
  unfold extract_video_id.
  destruct (search video_pattern_at url) as [g|] eqn:H1.
  { intros [= <-].
    apply (search_first_match _ _ _ PatternFacts.video_pattern_implements) in H1
      as (m & tok & Hfm & ->).
    destruct (first_match_run_inside _ _ _ _ Hfm) as [[Hne Hall] Hin]. auto. }
  destruct (search aweme_pattern_at url) as [g|] eqn:H2.
  { intros [= <-].
    apply (search_first_match _ _ _ PatternFacts.aweme_pattern_implements) in H2
      as (m & tok & Hfm & ->).
    destruct (first_match_run_inside _ _ _ _ Hfm) as [[Hne Hall] Hin]. auto. }
  destruct (search vid_pattern_at url) as [g|] eqn:H3; [|discriminate].
  intros [= <-].
  apply (search_first_match _ _ _ PatternFacts.vid_pattern_implements) in H3
    as (m & tok & Hfm & ->).
  destruct (first_match_run_inside _ _ _ _ Hfm) as [[Hne Hall] Hin]. auto.
Qed.

(** X5: the identifier put into the detail-API URL is the one
    [extract_video_id] reads back from that URL. *)
Theorem extract_video_id_detail_api_url `{U : Unicode} (video_id : str) :
  video_id <> "" -> all_in digit video_id = true ->
  extract_video_id (detail_api_url video_id) = Some video_id.
Proof.
  intros Hne Hall.
  assert (Hv : search video_pattern_at video_id = None)
    by (apply (search_in_class digit);
        [apply video_pattern_in_class; simpl; now rewrite (digit_ascii_other 47 eq_refl)
        | exact Hall]).
  assert (Ha : aweme_pattern_at ("aweme_id=" +:+ video_id) = Some video_id).
  { apply PatternFacts.aweme_pattern_implements.
    exists ("aweme_id=" +:+ video_id), video_id, "".
    rewrite StrFacts.app_nil_r. repeat split; auto.
    exists "aweme_id=". repeat split; simpl; auto. }
  unfold extract_video_id, detail_api_url. simpl (_ +:+ _).
  skip_literal. rewrite Hv.
  skip_literal. simpl (_ +:+ _) in Ha. now rewrite (search_here _ _ _ Ha).
Qed.

(** ** Outbound requests *)

Lemma follow_redirect_outbound (w : World) (short_url : str) (t : list event) :
  filter is_outbound (snd (follow_redirect w short_url t))
  = filter is_outbound t ++ [HttpxGet true short_url].
Proof.
  unfold follow_redirect, try_except, call, log, mbind, M_bind, mret, M_ret.
  destruct (httpx_get w true [] short_url) as [e|response]; simpl.
  - rewrite !filter_app. simpl. now rewrite app_nil_r.
  - now rewrite filter_app.
Qed.

Lemma fetch_data_with_httpx_outbound (w : World) (url video_id : str) (t : list event) :
  filter is_outbound (snd (fetch_data_with_httpx w url video_id t))
  = filter is_outbound t ++ [HttpxGet false (detail_api_url video_id)].
Proof.
  rewrite (tracing_snd _ t (fetch_data_with_httpx_tracing w url video_id)).
  rewrite filter_app. f_equal.
  unfold fetch_data_with_httpx, httpx_attempt, try_except, call, lift, log,
    mbind, M_bind, mret, M_ret.
  destruct (httpx_get w false httpx_headers (detail_api_url video_id)) as [e|r];
    simpl; [reflexivity|].
  destruct (resp_status_code r =? 200)%Z; [|reflexivity].
  destruct (resp_json r) as [e|data]; simpl; [reflexivity|].
  destruct (has_aweme_detail data) as [e|[|]]; simpl; try reflexivity.
  destruct (getitem data "aweme_detail") as [e|detail]; simpl; [reflexivity|].
  destruct (video_data_of_detail detail); reflexivity.
Qed.

(** X6: no retries.  [follow_redirect] sends exactly one request, the
    input URL with redirects followed; [fetch_data_with_httpx] sends
    exactly one, the detail-API URL of the identifier, whatever the
    answer is and also when the request raises. *)
Theorem httpx_requests_once (w : World) (url video_id : str) (t : list event) :
  filter is_outbound (snd (follow_redirect w url t))
  = filter is_outbound t ++ [HttpxGet true url] /\
  filter is_outbound (snd (fetch_data_with_httpx w url video_id t))
  = filter is_outbound t ++ [HttpxGet false (detail_api_url video_id)].
Proof.
  split; [apply follow_redirect_outbound | apply fetch_data_with_httpx_outbound].
Qed.

Lemma get_douyin_info_resolves_outbound `{U : Unicode} (w : World) (raw : str) (t : list event) :
  exists t1,
    get_douyin_info w raw t =
    match truthy_id (extract_video_id (resolved_url w raw)) with
    | None => (Raise (HTTPException 400 "Could not extract video ID from URL"), t1)
    | Some video_id => fetch_tiers w (resolved_url w raw) video_id t1
    end /\
    filter is_outbound t1
    = filter is_outbound t
      ++ (if contains "v.douyin.com" (clean_url raw)
          then [HttpxGet true (clean_url raw)] else []).
Proof.
  unfold get_douyin_info, resolved_url.
  destruct (contains "v.douyin.com" (clean_url raw)).
  - pose proof (follow_redirect_outbound w (clean_url raw) t) as Hout.
    unfold follow_redirect, try_except, call, log, raise, mbind, M_bind, mret, M_ret in *.
    destruct (httpx_get w true [] (clean_url raw)) as [e|response]; simpl in *.
    + eexists. split; [|exact Hout]. now destruct (truthy_id _).
    + eexists. split; [|exact Hout]. now destruct (truthy_id _).
  - exists t. unfold raise, mbind, M_bind, mret, M_ret.
    split; [now destruct (truthy_id _) | now rewrite app_nil_r].
Qed.

(** X7: without the browser capability the handler sends at most two
    requests and in this order: the cleaned URL with redirects followed,
    if it names the short-link host, and the detail-API URL of the
    identifier, if one was found. *)
Theorem get_douyin_info_requests `{U : Unicode} (w : World) (raw : str) (t : list event) :
  PLAYWRIGHT_AVAILABLE w = false ->
  filter is_outbound (snd (get_douyin_info w raw t))
  = filter is_outbound t
    ++ (if contains "v.douyin.com" (clean_url raw)
        then [HttpxGet true (clean_url raw)] else [])
    ++ match extract_video_id (resolved_url w raw) with
       | Some video_id => [HttpxGet false (detail_api_url video_id)]
       | None => []
       end.
Proof.
  intros Hav.
  destruct (get_douyin_info_resolves_outbound w raw t) as (t1 & -> & Hout).
  destruct (extract_video_id (resolved_url w raw)) as [video_id|] eqn:Hid.
  - rewrite <- Hid, (truthy_id_extract _ _ Hid).
    rewrite (fetch_tiers_absent _ _ _ _ Hav), fetch_data_with_httpx_outbound, Hout.
    now rewrite <- app_assoc.
  - simpl. rewrite Hout. now rewrite app_nil_r.
Qed.

(** ** Bodies that are not the expected object *)

Lemma fetch_data_with_httpx_200 (w : World) (url video_id : str) (t : list event)
    (response : Response) (data : pyval) :
  httpx_get w false httpx_headers (detail_api_url video_id) = Ok response ->
  resp_status_code response = 200%Z ->
  resp_json response = Ok data ->
  fst (fetch_data_with_httpx w url video_id t) =
  match has_aweme_detail data with
  | inl _ => Ok (error_data url video_id)
  | inr false => Ok (unavailable_data url video_id)
  | inr true =>
      match getitem data "aweme_detail" with
      | inl _ => Ok (error_data url video_id)
      | inr detail =>
          match video_data_of_detail detail with
          | inl _ => Ok (error_data url video_id)
          | inr vd => Ok vd
          end
      end
  end.
Proof.
  intros H Hst Hj.
  unfold fetch_data_with_httpx, httpx_attempt, try_except, call, lift, log,
    mbind, M_bind, mret, M_ret.
  rewrite H, Hst, Hj. simpl.
  destruct (has_aweme_detail data) as [e|[|]]; simpl; try reflexivity.
  destruct (getitem data "aweme_detail") as [e|detail]; simpl; [reflexivity|].
  destruct (video_data_of_detail detail); reflexivity.
Qed.

(** X8: a 200 whose body is not the expected object.  A falsy body
    ([null], [false], [0], the empty str, array or object) gives the
    "Video Description Unavailable" record; a truthy number or [true]
    makes the membership test raise and gives the "Error retrieving video
    details" record; so do an array that holds the str "aweme_detail"
    and a str that contains it, for which the membership test is true
    and the subscript raises. *)
Theorem fetch_data_with_httpx_odd_body
    (w : World) (url video_id : str) (t : list event)
    (response : Response) (data : pyval) :
  httpx_get w false httpx_headers (detail_api_url video_id) = Ok response ->
  resp_status_code response = 200%Z ->
  resp_json response = Ok data ->
  (truthy data = false ->
   fst (fetch_data_with_httpx w url video_id t)
   = Ok (mkVideoData (PStr video_id) (PStr "Video Description Unavailable")
           (PStr url) (PStr "Unknown"))) /\
  (truthy data = true -> is_scalar data = true ->
   fst (fetch_data_with_httpx w url video_id t)
   = Ok (mkVideoData (PStr video_id) (PStr "Error retrieving video details")
           (PStr url) (PStr "Unknown"))) /\
  (forall l, data = PList l -> In (PStr "aweme_detail") l ->
   fst (fetch_data_with_httpx w url video_id t)
   = Ok (mkVideoData (PStr video_id) (PStr "Error retrieving video details")
           (PStr url) (PStr "Unknown"))) /\
  (forall s, data = PStr s -> contains "aweme_detail" s = true ->
   fst (fetch_data_with_httpx w url video_id t)
   = Ok (mkVideoData (PStr video_id) (PStr "Error retrieving video details")
           (PStr url) (PStr "Unknown"))).
Proof.
  intros H Hst Hj.
  rewrite (fetch_data_with_httpx_200 w url video_id t response data H Hst Hj).
  unfold has_aweme_detail. repeat split.
  - intros Hf. now rewrite Hf.
  - intros Ht Hs. rewrite Ht. destruct data; try discriminate; reflexivity.
  - intros l -> Hin.
    assert (Ht : truthy (PList l) = true) by (destruct l; [destruct Hin | reflexivity]).
    rewrite Ht. unfold py_in.
    assert (Hex : existsb (fun x => match x with
                                    | PStr s => str_eqb s "aweme_detail"
                                    | _ => false
                                    end) l = true).
    { apply existsb_exists. exists (PStr "aweme_detail"). split; [exact Hin | reflexivity]. }
    now rewrite Hex.
  - intros s -> Hin.
    assert (Ht : truthy (PStr s) = true) by (destruct s; [discriminate | reflexivity]).
    rewrite Ht. unfold py_in. now rewrite Hin.
Qed.

(** X9: when [url_list] is a non-empty str instead of an array, the
    mapping does not raise: the record's [video_url] is the first
    character of that str. *)
Theorem video_data_of_detail_string_url_list
    (dd video play_addr au : gmap str pyval) (a d n : pyval) (c : char) (s : str) :
  dd !! "aweme_id" = Some a ->
  dd !! "desc" = Some d ->
  dd !! "video" = Some (PDict video) ->
  video !! "play_addr" = Some (PDict play_addr) ->
  play_addr !! "url_list" = Some (PStr (StrCons c s)) ->
  dd !! "author" = Some (PDict au) ->
  au !! "nickname" = Some n ->
  video_data_of_detail (PDict dd) = Ok (mkVideoData a d (PStr (StrCons c "")) n).
Proof.
  intros Ha Hd Hv Hpa Hul Hau Hn.
  unfold video_data_of_detail, getitem, getitem0, mbind, result_bind.
  now rewrite Ha, Hd, Hv, Hpa, Hul, Hau, Hn.
Qed.

(** ** Events a computation adds *)

Section Emits.
Context {E : Type} (P : event -> bool).

Lemma emits_ret {A} (a : A) : emits P (mret a : M E A).
Proof. intros t. exists []. split; [|reflexivity]. simpl. now rewrite app_nil_r. Qed.

Lemma emits_raise {A} (e : E) : emits P (raise e : M E A).
Proof. intros t. exists []. split; [|reflexivity]. simpl. now rewrite app_nil_r. Qed.

Lemma emits_lift {A} (r : E + A) : emits P (lift r).
Proof. intros t. exists []. split; [|reflexivity]. simpl. now rewrite app_nil_r. Qed.

Lemma emits_call {A} (ev : event) (r : E + A) : P ev = true -> emits P (call ev r).
Proof. intros H t. exists [ev]. split; [reflexivity|]. simpl. now rewrite H. Qed.

Lemma emits_log (level msg : str) :
  P (Log level msg) = true -> emits P (log level msg : M E unit).
Proof. intros H t. exists [Log level msg]. split; [reflexivity|]. simpl. now rewrite H. Qed.

Lemma emits_bind {A B} (m : M E A) (f : A -> M E B) :
  emits P m -> (forall a, emits P (f a)) -> emits P (m ≫= f).
Proof.
  intros Hm Hf t. unfold mbind, M_bind.
  destruct (Hm t) as (evs & Hs & Hall).
  destruct (m t) as [[e|a] t']; simpl in *; subst t'.
  - now exists evs.
  - destruct (Hf a (t ++ evs)) as (evs' & Hs' & Hall').
    exists (evs ++ evs'). rewrite Hs', app_assoc, forallb_app, Hall, Hall'. auto.
Qed.

Lemma emits_try_except {E' A} (m : M E' A) (h : E' -> M E A) :
  emits P m -> (forall e, emits P (h e)) -> emits P (try_except m h).
Proof.
  intros Hm Hh t. unfold try_except.
  destruct (Hm t) as (evs & Hs & Hall).
  destruct (m t) as [[e|a] t']; simpl in *; subst t'.
  - destruct (Hh e (t ++ evs)) as (evs' & Hs' & Hall').
    exists (evs ++ evs'). rewrite Hs', app_assoc, forallb_app, Hall, Hall'. auto.
  - now exists evs.
Qed.

End Emits.

Lemma emits_weaken {E A} (P Q : event -> bool) (m : M E A) :
  (forall ev, P ev = true -> Q ev = true) -> emits P m -> emits Q m.
Proof.
  intros HPQ Hm t. destruct (Hm t) as (evs & Hs & Hall).
  exists evs. split; [exact Hs|].
  apply forallb_forall. intros ev Hin. apply HPQ.
  exact (proj1 (forallb_forall P evs) Hall ev Hin).
Qed.

(** What a computation adds is invisible to a filter it never satisfies. *)
Lemma emits_filter {E A} (P : event -> bool) (m : M E A) (t : list event) :
  emits (fun ev => negb (P ev)) m -> filter P (snd (m t)) = filter P t.
Proof.
  intros Hm. destruct (Hm t) as (evs & -> & Hall).
  rewrite filter_app.
  assert (H : filter P evs = []).
  { clear -Hall. induction evs as [|ev evs IH]; [reflexivity|].
    simpl in Hall. apply andb_true_iff in Hall as [Hev Hall].
    rewrite filter_cons_False; [now apply IH|].
    destruct (P ev); [discriminate | simpl; auto]. }
  rewrite H. apply app_nil_r.
Qed.

Ltac emits_step :=
  match goal with
  | |- emits _ (mbind _ _) => apply emits_bind
  | |- emits _ (try_except _ _) => apply emits_try_except
  | |- emits _ (call _ _) => apply emits_call; reflexivity
  | |- emits _ (log _ _) => apply emits_log; reflexivity
  | |- emits _ (mret _) => apply emits_ret
  | |- emits _ (raise _) => apply emits_raise
  | |- emits _ (lift _) => apply emits_lift
  | |- emits _ (if ?b then _ else _) => destruct b
  | |- emits _ (match ?x with _ => _ end) => destruct x
  | |- forall _, _ => intro
  end.
Ltac solve_emits := repeat emits_step.

(** ** The response observer *)

Lemma handle_response_emits {E} (vd : option VideoData) (r : PwResponse) :
  emits not_outbound (handle_response (E:=E) vd r).
Proof. unfold handle_response. solve_emits. Qed.

Lemma observe_emits {E} (rs : list PwResponse) (vd : option VideoData) :
  emits not_outbound (observe (E:=E) vd rs).
Proof.
  revert vd. induction rs as [|r rs IH]; intros vd; simpl.
  - apply emits_ret.
  - apply emits_bind; [apply handle_response_emits | intros; apply IH].
Qed.

Lemma handle_response_other_url {E} (vd : option VideoData) (r : PwResponse) (t : list event) :
  contains "aweme/v1/web/aweme/detail" (pw_resp_url r) = false ->
  handle_response (E:=E) vd r t = (Ok vd, t).
Proof. intros H. unfold handle_response. now rewrite H. Qed.

Lemma handle_response_captures {E} (vd : option VideoData) (r : PwResponse)
    (t : list event) (v : VideoData) :
  captures r v -> handle_response (E:=E) vd r t = (Ok (Some v), t).
Proof.
  intros (Hurl & d & detail & Hj & Hd & Hv).
  unfold handle_response, try_except, lift, mbind, M_bind, mret, M_ret.
  rewrite Hurl, Hj. simpl. rewrite (has_aweme_detail_present d detail Hd).
  unfold getitem. rewrite Hd. simpl. now rewrite Hv.
Qed.

Lemma handle_response_result {E} (vd : option VideoData) (r : PwResponse) (t : list event) :
  exists vd',
    fst (handle_response (E:=E) vd r t) = Ok vd' /\
    (vd' = vd \/ exists v, vd' = Some v /\ captures r v).
Proof.
  unfold handle_response, try_except, lift, log, mbind, M_bind, mret, M_ret.
  destruct (contains _ (pw_resp_url r)) eqn:Hurl; [|eauto].
  destruct (pw_resp_json r) as [e|data] eqn:Hj; simpl; [eauto|].
  destruct (has_aweme_detail data) as [e|[|]] eqn:Hhas; simpl; eauto.
  destruct (getitem data "aweme_detail") as [e|detail] eqn:Hget; simpl; [eauto|].
  destruct (video_data_of_detail detail) as [e|v] eqn:Hv; simpl; [eauto|].
  exists (Some v). split; [reflexivity|]. right. exists v. split; [reflexivity|].
  split; [exact Hurl|].
  destruct data; simpl in Hget; try discriminate.
  destruct (d !! "aweme_detail") as [x|] eqn:Hd; [|discriminate].
  injection Hget as ->. now exists d, detail.
Qed.

(** X10: the observer never raises.  A response whose URL does not hold
    the detail-API path leaves the slot as it is and logs nothing; a
    response that captures fills the slot; and the slot changes in no
    other way, whatever the body of a response is. *)
Theorem handle_response_swallows {E} (vd : option VideoData) (r : PwResponse)
    (t : list event) :
  (exists vd',
      fst (handle_response (E:=E) vd r t) = Ok vd' /\
      (vd' = vd \/ exists v, vd' = Some v /\ captures r v)) /\
  (contains "aweme/v1/web/aweme/detail" (pw_resp_url r) = false ->
   handle_response (E:=E) vd r t = (Ok vd, t)) /\
  (forall v, captures r v -> handle_response (E:=E) vd r t = (Ok (Some v), t)).
Proof.
  split; [apply handle_response_result|].
  split; [apply handle_response_other_url|].
  intros v. apply handle_response_captures.
Qed.

Lemma observe_no_capture {E} (rs : list PwResponse) (vd : option VideoData) (t : list event) :
  (forall r v, In r rs -> ~ captures r v) ->
  fst (observe (E:=E) vd rs t) = Ok vd.
Proof.
  revert vd t. induction rs as [|r rs IH]; intros vd t Hno; [reflexivity|].
  simpl. unfold mbind, M_bind.
  destruct (handle_response_result (E:=E) vd r t) as (vd' & Hfst & Hcase).
  destruct (handle_response vd r t) as [[e|a] t']; simpl in Hfst; [discriminate|].
  injection Hfst as ->.
  destruct Hcase as [-> | (v & _ & Hcap)].
  - apply IH. intros r' v' Hin. apply Hno. now right.
  - exfalso. apply (Hno r v); [now left | exact Hcap].
Qed.

Lemma observe_returns {E} (rs : list PwResponse) (vd : option VideoData) (t : list event) :
  exists vd', fst (observe (E:=E) vd rs t) = Ok vd'.
Proof.
  revert vd t. induction rs as [|r rs IH]; intros vd t; [now exists vd|].
  simpl. unfold mbind, M_bind.
  destruct (handle_response_result (E:=E) vd r t) as (vd' & Hfst & _).
  destruct (handle_response vd r t) as [[e|a] t']; simpl in Hfst; [discriminate|].
  apply IH.
Qed.

(** X11: the observer called on a sequence of responses never raises,
    and the slot ends with the record of the last response that captures:
    the responses before it do not matter, and responses that capture
    nothing leave the slot as it is. *)
Theorem observe_last_capture_wins {E} (rs rs' : list PwResponse) (r : PwResponse)
    (v : VideoData) (vd : option VideoData) (t : list event) :
  captures r v ->
  (forall r' v', In r' rs' -> ~ captures r' v') ->
  fst (observe (E:=E) vd (rs ++ r :: rs') t) = Ok (Some v) /\
  fst (observe (E:=E) vd rs' t) = Ok vd /\
  exists vd', fst (observe (E:=E) vd rs t) = Ok vd'.
Proof.
  intros Hcap Hno. split; [|split; [now apply observe_no_capture | apply observe_returns]].
  revert vd t. induction rs as [|a rs IH]; intros vd t; simpl; unfold mbind, M_bind.
  - rewrite (handle_response_captures vd r t v Hcap).
    now apply observe_no_capture.
  - destruct (handle_response_result (E:=E) vd a t) as (vd' & Hfst & _).
    destruct (handle_response vd a t) as [[e|x] t']; simpl in Hfst; [discriminate|].
    apply IH.
Qed.

(** ** The Playwright session *)

Lemma not_outbound_not_httpx (ev : event) : not_outbound ev = true -> not_httpx ev = true.
Proof. now destruct ev. Qed.

Lemma observe_adds_no_outbound (rs : list PwResponse) (vd : option VideoData) :
  filter is_outbound (snd (observe (E:=pw_error) vd rs [])) = [].
Proof. exact (emits_filter is_outbound _ [] (observe_emits rs vd)). Qed.

Ltac emits_session_step :=
  first
    [ match goal with
      | |- emits not_httpx (observe _ _) =>
          apply (emits_weaken not_outbound not_httpx _ not_outbound_not_httpx), observe_emits
      end
    | emits_step ].

Lemma playwright_session_emits `{U : Unicode} (w : World) (url : str) :
  emits not_httpx (playwright_session w url).
Proof. unfold playwright_session. repeat emits_session_step. Qed.

(** Runs the session along the answers of the world given as hypotheses. *)
Ltac observe_split :=
  repeat match goal with
    | |- context [observe None ?rs (?a ++ ?b)] =>
        rewrite (observe_tracing (E:=pw_error) rs None (a ++ b))
    end.

(** X12: when the browser works and a response of the first navigation
    is captured, the session returns the captured record after exactly
    one navigation: launch, [goto url], close. *)
Theorem playwright_session_first_capture `{U : Unicode}
    (w : World) (url : str) (t : list event)
    (rs : list PwResponse) (page : Page) (v : VideoData) :
  pw_launch w = Ok tt ->
  pw_goto w [] url = Ok (rs, page) ->
  fst (observe (E:=pw_error) None rs []) = Ok (Some v) ->
  pw_close w = Ok tt ->
  fst (playwright_session w url t) = Ok v /\
  filter is_outbound (snd (playwright_session w url t))
  = filter is_outbound t ++ [PwLaunch; PwGoto url; PwClose].
Proof.
  intros Hl Hg Hobs Hc.
  unfold playwright_session, call, lift, mbind, M_bind, mret, M_ret.
  rewrite Hl. simpl. rewrite Hg. simpl. observe_split. rewrite Hobs. simpl.
  rewrite Hc. simpl. split; [reflexivity|].
  rewrite !filter_app, observe_adds_no_outbound. simpl.
  now rewrite app_nil_r, <- !app_assoc.
Qed.

(** X13: when nothing is captured and the URL the page ended on holds
    no identifier, the session does not navigate again and returns
    "unknown", the title of the page, the URL of the page and "Unknown". *)
Theorem playwright_session_title_fallback `{U : Unicode}
    (w : World) (url : str) (t : list event)
    (rs : list PwResponse) (page : Page) (title : str) :
  pw_launch w = Ok tt ->
  pw_goto w [] url = Ok (rs, page) ->
  fst (observe (E:=pw_error) None rs []) = Ok None ->
  extract_video_id (page_url page) = None ->
  page_title page = Ok title ->
  pw_close w = Ok tt ->
  fst (playwright_session w url t)
  = Ok (mkVideoData (PStr "unknown") (PStr title) (PStr (page_url page)) (PStr "Unknown")) /\
  filter is_outbound (snd (playwright_session w url t))
  = filter is_outbound t ++ [PwLaunch; PwGoto url; PwClose].
Proof.
  intros Hl Hg Hobs Hid Ht Hc.
  unfold playwright_session, call, lift, mbind, M_bind, mret, M_ret.
  rewrite Hl. simpl. rewrite Hg. simpl. observe_split. rewrite Hobs. simpl.
  rewrite Hid. simpl. rewrite Ht. simpl. rewrite Hc. simpl.
  split; [reflexivity|].
  rewrite !filter_app, observe_adds_no_outbound. simpl.
  now rewrite app_nil_r, <- !app_assoc.
Qed.

(** X14: when nothing is captured but the URL the page ended on holds
    an identifier, the session navigates once more, to the detail-API URL
    of that identifier.  A record captured there is returned; otherwise
    the record holds the identifier, the title of the page reached by the
    second navigation, and the URL the first navigation ended on. *)
Theorem playwright_session_second_navigation `{U : Unicode}
    (w : World) (url : str) (t : list event)
    (rs rs2 : list PwResponse) (page page2 : Page) (video_id : str) :
  pw_launch w = Ok tt ->
  pw_goto w [] url = Ok (rs, page) ->
  fst (observe (E:=pw_error) None rs []) = Ok None ->
  extract_video_id (page_url page) = Some video_id ->
  pw_goto w [url] (detail_api_url video_id) = Ok (rs2, page2) ->
  pw_close w = Ok tt ->
  (forall v, fst (observe (E:=pw_error) None rs2 []) = Ok (Some v) ->
             fst (playwright_session w url t) = Ok v) /\
  (forall title,
      fst (observe (E:=pw_error) None rs2 []) = Ok None ->
      page_title page2 = Ok title ->
      fst (playwright_session w url t)
      = Ok (mkVideoData (PStr video_id) (PStr title) (PStr (page_url page)) (PStr "Unknown"))) /\
  (forall vd, fst (playwright_session w url t) = Ok vd ->
              filter is_outbound (snd (playwright_session w url t))
              = filter is_outbound t
                ++ [PwLaunch; PwGoto url; PwGoto (detail_api_url video_id); PwClose]).
Proof.
  intros Hl Hg Hobs Hid Hg2 Hc.
  pose proof (truthy_id_extract _ _ Hid) as Htr.
  unfold playwright_session, call, lift, mbind, M_bind, mret, M_ret.
  rewrite Hl. simpl. rewrite Hg. simpl. observe_split. rewrite Hobs. simpl.
  rewrite Htr. simpl. rewrite Hg2. simpl. observe_split.
  destruct (observe_returns (E:=pw_error) rs2 None []) as [vd2 Hobs2].
  rewrite Hobs2. simpl.
  assert (Hout : forall evs,
             filter is_outbound
               (((((t ++ [PwLaunch]) ++ [PwGoto url]) ++ snd (observe (E:=pw_error) None rs []))
                   ++ [PwGoto (detail_api_url video_id)])
                  ++ snd (observe (E:=pw_error) None rs2 []) ++ evs)
             = filter is_outbound t
               ++ [PwLaunch; PwGoto url; PwGoto (detail_api_url video_id)]
               ++ filter is_outbound evs).
  { intros evs. rewrite !filter_app, !observe_adds_no_outbound. simpl.
    now rewrite !app_nil_r, <- !app_assoc. }
  destruct vd2 as [v2|]; simpl.
  - rewrite Hc. simpl. repeat split.
    + now intros v [= <-].
    + discriminate.
    + intros _ _. rewrite <- app_assoc, Hout. reflexivity.
  - destruct (page_title page2) as [e|title2]; simpl.
    + repeat split; try discriminate.
    + rewrite Hc. simpl. repeat split.
      * discriminate.
      * now intros title _ [= <-].
      * intros _ _. rewrite <- app_assoc, Hout. reflexivity.
Qed.

(** ** The two tiers in the handler *)

(** X15: whatever goes wrong in the browser, [get_data_with_playwright]
    raises nothing but an [HTTPException] 500, whose detail is "Playwright
    not available" or "Playwright error: " followed by the text of the
    exception caught. *)
Theorem get_data_with_playwright_raises_500 `{U : Unicode}
    (w : World) (url : str) (t : list event) (e : exn) :
  fst (get_data_with_playwright w url t) = Raise e ->
  e = HTTPException 500 "Playwright not available" \/
  exists pe, e = HTTPException 500 ("Playwright error: " +:+ pw_str pe).
Proof.
  unfold get_data_with_playwright, try_except, log, raise, mbind, M_bind.
  destruct (negb (PLAYWRIGHT_AVAILABLE w)); simpl.
  - intros [= <-]. now left.
  - destruct (playwright_session w url t) as [[pe|vd] t']; simpl.
    + intros [= <-]. right. now exists pe.
    + discriminate.
Qed.

Lemma follow_redirect_httpx (w : World) (short_url : str) (t : list event) :
  filter is_httpx (snd (follow_redirect w short_url t))
  = filter is_httpx t ++ [HttpxGet true short_url].
Proof.
  unfold follow_redirect, try_except, call, log, mbind, M_bind, mret, M_ret.
  destruct (httpx_get w true [] short_url) as [e|response]; simpl.
  - rewrite !filter_app. simpl. now rewrite app_nil_r.
  - now rewrite filter_app.
Qed.

Lemma get_douyin_info_resolves_httpx `{U : Unicode} (w : World) (raw : str) (t : list event) :
  exists t1,
    get_douyin_info w raw t =
    match truthy_id (extract_video_id (resolved_url w raw)) with
    | None => (Raise (HTTPException 400 "Could not extract video ID from URL"), t1)
    | Some video_id => fetch_tiers w (resolved_url w raw) video_id t1
    end /\
    filter is_httpx t1
    = filter is_httpx t
      ++ (if contains "v.douyin.com" (clean_url raw)
          then [HttpxGet true (clean_url raw)] else []).
Proof.
  unfold get_douyin_info, resolved_url.
  destruct (contains "v.douyin.com" (clean_url raw)).
  - pose proof (follow_redirect_httpx w (clean_url raw) t) as Hout.
    unfold follow_redirect, try_except, call, log, raise, mbind, M_bind, mret, M_ret in *.
    destruct (httpx_get w true [] (clean_url raw)) as [e|response]; simpl in *.
    + eexists. split; [|exact Hout]. now destruct (truthy_id _).
    + eexists. split; [|exact Hout]. now destruct (truthy_id _).
  - exists t. unfold raise, mbind, M_bind, mret, M_ret.
    split; [now destruct (truthy_id _) | now rewrite app_nil_r].
Qed.

(** X16: the tiers exclude each other on success.  When the browser
    session returns a record, the handler returns that record and sends
    no request to the detail API through httpx: its only httpx request is
    the one that resolves a short link. *)
Theorem get_douyin_info_browser_first `{U : Unicode}
    (w : World) (raw video_id : str) (t : list event) (v : VideoData) :
  extract_video_id (resolved_url w raw) = Some video_id ->
  PLAYWRIGHT_AVAILABLE w = true ->
  fst (playwright_session w (resolved_url w raw) []) = Ok v ->
  fst (get_douyin_info w raw t) = Ok v /\
  filter is_httpx (snd (get_douyin_info w raw t))
  = filter is_httpx t
    ++ (if contains "v.douyin.com" (clean_url raw)
        then [HttpxGet true (clean_url raw)] else []).
Proof.
  intros Hid Hav Hs.
  destruct (get_douyin_info_resolves_httpx w raw t) as (t1 & -> & Hout).
  rewrite (truthy_id_extract _ _ Hid).
  pose proof (playwright_session_tracing w (resolved_url w raw) t1) as Htr.
  pose proof (emits_filter is_httpx _ [] (playwright_session_emits w (resolved_url w raw)))
    as Hnone.
  unfold fetch_tiers, get_data_with_playwright, try_except, log, raise,
    mbind, M_bind, mret, M_ret.
  rewrite Hav. simpl. rewrite Htr, Hs. simpl.
  split; [reflexivity|].
  rewrite filter_app, Hnone, Hout. simpl. now rewrite app_nil_r.
Qed.

(** X17: the placeholder records the handler returns carry the
    identifier found and the URL it was found in, that is the resolved URL
    and not the text the client sent. *)
Theorem get_douyin_info_placeholder `{U : Unicode}
    (w : World) (raw video_id : str) (t : list event) :
  PLAYWRIGHT_AVAILABLE w = false ->
  extract_video_id (resolved_url w raw) = Some video_id ->
  (forall e,
      httpx_get w false httpx_headers (detail_api_url video_id) = Raise e ->
      fst (get_douyin_info w raw t)
      = Ok (mkVideoData (PStr video_id) (PStr "Error retrieving video details")
              (PStr (resolved_url w raw)) (PStr "Unknown"))) /\
  (forall response,
      httpx_get w false httpx_headers (detail_api_url video_id) = Ok response ->
      resp_status_code response <> 200%Z ->
      fst (get_douyin_info w raw t)
      = Ok (mkVideoData (PStr video_id) (PStr "Video Description Unavailable")
              (PStr (resolved_url w raw)) (PStr "Unknown"))).
Proof.
  intros Hav Hid.
  destruct (get_douyin_info_resolves w raw t) as (t1 & -> & _).
  rewrite (truthy_id_extract _ _ Hid), (fetch_tiers_absent _ _ _ _ Hav).
  rewrite fetch_data_with_httpx_result. split.
  - intros e H. now rewrite (httpx_attempt_raised _ _ _ _ e H).
  - intros response H Hst. now rewrite (httpx_attempt_not_200 _ _ _ _ response H Hst).
Qed.

Lemma fetch_data_with_httpx_httpx (w : World) (url video_id : str) (t : list event) :
  filter is_httpx (snd (fetch_data_with_httpx w url video_id t))
  = filter is_httpx t ++ [HttpxGet false (detail_api_url video_id)].
Proof.
  rewrite (tracing_snd _ t (fetch_data_with_httpx_tracing w url video_id)).
  rewrite filter_app. f_equal.
  unfold fetch_data_with_httpx, httpx_attempt, try_except, call, lift, log,
    mbind, M_bind, mret, M_ret.
  destruct (httpx_get w false httpx_headers (detail_api_url video_id)) as [e|r];
    simpl; [reflexivity|].
  destruct (resp_status_code r =? 200)%Z; [|reflexivity].
  destruct (resp_json r) as [e|data]; simpl; [reflexivity|].
  destruct (has_aweme_detail data) as [e|[|]]; simpl; try reflexivity.
  destruct (getitem data "aweme_detail") as [e|detail]; simpl; [reflexivity|].
  destruct (video_data_of_detail detail); reflexivity.
Qed.

(** X18: when the browser session raises, the fallback sends exactly one
    request to the detail API through httpx, after the one that resolved
    a short link if there was one; nothing is retried. *)
Theorem get_douyin_info_fallback_requests `{U : Unicode}
    (w : World) (raw video_id : str) (t : list event) (e : pw_error) :
  extract_video_id (resolved_url w raw) = Some video_id ->
  PLAYWRIGHT_AVAILABLE w = true ->
  fst (playwright_session w (resolved_url w raw) []) = Raise e ->
  filter is_httpx (snd (get_douyin_info w raw t))
  = filter is_httpx t
    ++ (if contains "v.douyin.com" (clean_url raw)
        then [HttpxGet true (clean_url raw)] else [])
    ++ [HttpxGet false (detail_api_url video_id)].
Proof.
  intros Hid Hav Hs.
  destruct (get_douyin_info_resolves_httpx w raw t) as (t1 & -> & Hout).
  rewrite (truthy_id_extract _ _ Hid).
  pose proof (playwright_session_tracing w (resolved_url w raw) t1) as Htr.
  pose proof (emits_filter is_httpx _ [] (playwright_session_emits w (resolved_url w raw)))
    as Hnone.
  unfold fetch_tiers, get_data_with_playwright, try_except, log, raise,
    mbind, M_bind, mret, M_ret.
  rewrite Hav. simpl. rewrite Htr, Hs. simpl.
  rewrite fetch_data_with_httpx_httpx, !filter_app, Hnone, Hout. simpl.
  now rewrite !app_nil_r, <- app_assoc.
Qed.

(** X19: [clean_url] invents nothing: what it returns stands in the
    input. *)
Theorem clean_url_inside (raw : str) : contains (clean_url raw) raw = true.
Proof.
  apply StrFacts.contains_true.
  destruct (search short_link_at raw) as [m|] eqn:H.
  - assert (Hraw : clean_url raw = m) by (unfold clean_url; now rewrite H).
    rewrite Hraw.
    apply (search_first_match _ _ _ PatternFacts.short_link_implements) in H
      as (m' & tok & (pre & post & -> & _) & ->).
    now exists pre, post.
  - assert (Hraw : clean_url raw = raw)
      by (unfold clean_url; rewrite H; now destruct (startswith raw _)).
    rewrite Hraw. exists "", "". simpl. now rewrite StrFacts.app_nil_r.
Qed.

(** * The theorems on sample inputs

    From here on the decimal digits are those of Unicode 14.0.0. *)

#[global] Existing Instance unicode_14.

Example clean_url_share_text :
  clean_url "7.43 look https://v.douyin.com/iRNBho6u/ copy this link"
  = "https://v.douyin.com/iRNBho6u".
Proof. reflexivity. Qed.

Example clean_url_http : clean_url "xhttp://v.douyin.com/a-b" = "http://v.douyin.com/a".
Proof. reflexivity. Qed.

Example clean_url_canonical :
  clean_url "https://www.douyin.com/video/12345" = "https://www.douyin.com/video/12345".
Proof. reflexivity. Qed.

Example extract_video : extract_video_id "https://www.douyin.com/video/12345?vid=222" = Some "12345".
Proof. reflexivity. Qed.

Example extract_note : extract_video_id "https://www.douyin.com/note/67890" = Some "67890".
Proof. reflexivity. Qed.

Example extract_aweme : extract_video_id "https://x/?vid=222&aweme_id=111" = Some "111".
Proof. reflexivity. Qed.

Example extract_vid : extract_video_id "https://x/?vid=222" = Some "222".
Proof. reflexivity. Qed.

Example extract_none : extract_video_id "https://www.douyin.com/video/abc" = None.
Proof. reflexivity. Qed.

(** Digits outside ASCII: [\d] takes them, [[a-zA-Z0-9]] does not. *)
Example extract_fullwidth :
  extract_video_id ("https://www.douyin.com/video/" +:+ fullwidth_123 +:+ "?aweme_id=111")
  = Some fullwidth_123.
Proof. reflexivity. Qed.

Example extract_arabic_indic :
  extract_video_id ("https://x/?vid=" +:+ arabic_34 +:+ "5&aweme_id=x") = Some (arabic_34 +:+ "5").
Proof. reflexivity. Qed.

Example clean_url_fullwidth :
  clean_url ("https://v.douyin.com/ab" +:+ fullwidth_123) = "https://v.douyin.com/ab".
Proof. reflexivity. Qed.

Lemma clean_url_spec_witness :
  (exists m tok,
      first_match short_link "7.43 look https://v.douyin.com/iRNBho6u/ copy" m tok /\
      clean_url "7.43 look https://v.douyin.com/iRNBho6u/ copy" = m) /\
  clean_url "https://www.douyin.com/video/12345" = "https://www.douyin.com/video/12345".
Proof.
  split.
  - apply (proj1 (clean_url_spec "7.43 look https://v.douyin.com/iRNBho6u/ copy")).
    exists "7.43 look ", "https://v.douyin.com/iRNBho6u", "iRNBho6u", "/ copy".
    split; [reflexivity|].
    exists "https://v.douyin.com/". repeat split; [simpl; auto | discriminate].
  - apply (proj2 (proj2 (clean_url_spec "https://www.douyin.com/video/12345"))).
    apply (search_no_match _ _ _ PatternFacts.short_link_implements).
    reflexivity.
Defined.

Lemma extract_video_id_priority_witness :
  (exists m ds,
      first_match video_form "https://www.douyin.com/video/12345?aweme_id=111&vid=222" m ds /\
      extract_video_id "https://www.douyin.com/video/12345?aweme_id=111&vid=222" = Some ds) /\
  (exists m ds,
      first_match aweme_form "https://x/?vid=222&aweme_id=111" m ds /\
      extract_video_id "https://x/?vid=222&aweme_id=111" = Some ds) /\
  (exists m ds,
      first_match vid_form "https://x/?vid=222" m ds /\
      extract_video_id "https://x/?vid=222" = Some ds) /\
  extract_video_id "https://www.douyin.com/user/abc" = None /\
  (exists m ds,
      first_match video_form
        ("https://www.douyin.com/video/" +:+ fullwidth_123 +:+ "?aweme_id=111") m ds /\
      extract_video_id ("https://www.douyin.com/video/" +:+ fullwidth_123 +:+ "?aweme_id=111")
      = Some ds).
Proof.
  split; [|split; [|split; [|split]]];
    [| | | |
     apply (proj1 (extract_video_id_priority (U:=unicode_14)
                     ("https://www.douyin.com/video/" +:+ fullwidth_123 +:+ "?aweme_id=111")));
     exists "https://www.douyin.com", ("/video/" +:+ fullwidth_123), fullwidth_123,
       "?aweme_id=111";
     split; [reflexivity|];
     exists "/video/"; repeat split; [simpl; auto | discriminate]].
  - apply (proj1 (extract_video_id_priority (U:=unicode_14)
                    "https://www.douyin.com/video/12345?aweme_id=111&vid=222")).
    exists "https://www.douyin.com", "/video/12345", "12345", "?aweme_id=111&vid=222".
    split; [reflexivity|].
    exists "/video/". repeat split; [simpl; auto | discriminate].
  - apply (proj1 (proj2 (extract_video_id_priority (U:=unicode_14) "https://x/?vid=222&aweme_id=111"))).
    + apply (search_no_match _ _ _ PatternFacts.video_pattern_implements). reflexivity.
    + exists "https://x/?vid=222&", "aweme_id=111", "111", "".
      split; [reflexivity|].
      exists "aweme_id=". repeat split; [simpl; auto | discriminate].
  - apply (proj1 (proj2 (proj2 (extract_video_id_priority (U:=unicode_14) "https://x/?vid=222")))).
    + apply (search_no_match _ _ _ PatternFacts.video_pattern_implements). reflexivity.
    + apply (search_no_match _ _ _ PatternFacts.aweme_pattern_implements). reflexivity.
    + exists "https://x/?", "vid=222", "222", "".
      split; [reflexivity|].
      exists "vid=". repeat split; [simpl; auto | discriminate].
  - apply (proj1 (proj2 (proj2 (proj2
             (extract_video_id_priority (U:=unicode_14) "https://www.douyin.com/user/abc"))))).
    repeat split.
    + apply (search_no_match _ _ _ PatternFacts.video_pattern_implements). reflexivity.
    + apply (search_no_match _ _ _ PatternFacts.aweme_pattern_implements). reflexivity.
    + apply (search_no_match _ _ _ PatternFacts.vid_pattern_implements). reflexivity.
Defined.

Lemma extract_video_id_raw_substring_witness :
  (exists ds', extract_video_id ("fake_" +:+ "aweme_id=" +:+ "123" +:+ "&x=1") = Some ds' /\
               run_of digit ds') /\
  extract_video_id ("fake_" +:+ "aweme_id=" +:+ "123" +:+ "&x=1") = Some "123" /\
  extract_video_id ("page#" +:+ "vid=" +:+ "42" +:+ "") = Some "42".
Proof.
  destruct (extract_video_id_raw_substring (U:=unicode_14)) as (H1 & H2 & H3 & _).
  assert (Hrun : forall s, s <> "" -> all_in digit s = true -> run_of digit s)
    by (intros s; split; assumption).
  split; [|split].
  - apply H1; [now left | apply Hrun; [discriminate | reflexivity]].
  - apply H2; [apply Hrun; [discriminate | reflexivity] | reflexivity | |].
    + apply (search_no_match _ _ _ PatternFacts.video_pattern_implements). reflexivity.
    + intros p1 p2 Hp Hne.
      apply (at_pos_None _ _ _ PatternFacts.aweme_pattern_implements).
      destruct p1 as [|c1 [|c2 [|c3 [|c4 [|c5 [|c6 p1]]]]]]; simpl in Hp;
        try (injection Hp as <-); subst; simpl in *; try congruence; try reflexivity.
      all: repeat match goal with H : StrCons _ _ = StrCons _ _ |- _ => injection H as ? H end.
      all: try discriminate.
      all: destruct p1; discriminate.
  - apply H3; [apply Hrun; [discriminate | reflexivity] | reflexivity | | |].
    + apply (search_no_match _ _ _ PatternFacts.video_pattern_implements). reflexivity.
    + apply (search_no_match _ _ _ PatternFacts.aweme_pattern_implements). reflexivity.
    + intros p1 p2 Hp Hne.
      apply (at_pos_None _ _ _ PatternFacts.vid_pattern_implements).
      destruct p1 as [|c1 [|c2 [|c3 [|c4 [|c5 [|c6 p1]]]]]]; simpl in Hp;
        try (injection Hp as <-); subst; simpl in *; try congruence; try reflexivity.
      all: repeat match goal with H : StrCons _ _ = StrCons _ _ |- _ => injection H as ? H end.
      all: try discriminate.
      all: destruct p1; discriminate.
Defined.

Lemma follow_redirect_soft_fail_witness :
  fst (follow_redirect world_down "https://v.douyin.com/ABC123" [])
  = Ok "https://v.douyin.com/ABC123" /\
  fst (follow_redirect (world_api 200 (Ok PNone)) "https://v.douyin.com/ABC123" [])
  = Ok "https://www.douyin.com/video/999".
Proof.
  split.
  - apply (proj1 (proj2 (follow_redirect_soft_fail
                           world_down "https://v.douyin.com/ABC123" [])) (LibraryError "timed out")).
    reflexivity.
  - apply (proj2 (proj2 (follow_redirect_soft_fail
                           (world_api 200 (Ok PNone)) "https://v.douyin.com/ABC123" []))
             {| resp_status_code := 200;
                resp_url := "https://www.douyin.com/video/999";
                resp_json := Raise (LibraryError "Expecting value") |}).
    reflexivity.
Defined.

Lemma fetch_data_with_httpx_never_raises_witness :
  fst (fetch_data_with_httpx (world_api 404 (Raise (LibraryError "Expecting value")))
         "https://www.douyin.com/video/999" "999" [])
  = Ok (mkVideoData (PStr "999") (PStr "Video Description Unavailable")
          (PStr "https://www.douyin.com/video/999") (PStr "Unknown")) /\
  fst (fetch_data_with_httpx (world_api 200 (Ok (PDict ∅)))
         "https://www.douyin.com/video/999" "999" [])
  = Ok (mkVideoData (PStr "999") (PStr "Video Description Unavailable")
          (PStr "https://www.douyin.com/video/999") (PStr "Unknown")) /\
  fst (fetch_data_with_httpx world_down "https://www.douyin.com/video/999" "999" [])
  = Ok (mkVideoData (PStr "999") (PStr "Error retrieving video details")
          (PStr "https://www.douyin.com/video/999") (PStr "Unknown")) /\
  fst (fetch_data_with_httpx (world_api 200 (Raise (LibraryError "Expecting value")))
         "https://www.douyin.com/video/999" "999" [])
  = Ok (mkVideoData (PStr "999") (PStr "Error retrieving video details")
          (PStr "https://www.douyin.com/video/999") (PStr "Unknown")).
Proof.
  split; [|split; [|split]].
  - destruct (fetch_data_with_httpx_never_raises
                (world_api 404 (Raise (LibraryError "Expecting value")))
                "https://www.douyin.com/video/999" "999" []) as (_ & H & _).
    apply (H {| resp_status_code := 404; resp_url := detail_api_url "999";
                resp_json := Raise (LibraryError "Expecting value") |});
      [reflexivity | discriminate].
  - destruct (fetch_data_with_httpx_never_raises
                (world_api 200 (Ok (PDict ∅)))
                "https://www.douyin.com/video/999" "999" []) as (_ & _ & H & _).
    apply (H {| resp_status_code := 200; resp_url := detail_api_url "999";
                resp_json := Ok (PDict ∅) |} ∅); reflexivity.
  - destruct (fetch_data_with_httpx_never_raises
                world_down "https://www.douyin.com/video/999" "999" [])
      as (_ & _ & _ & _ & H & _).
    apply (H (LibraryError "timed out")). reflexivity.
  - destruct (fetch_data_with_httpx_never_raises
                (world_api 200 (Raise (LibraryError "Expecting value")))
                "https://www.douyin.com/video/999" "999" [])
      as (_ & _ & _ & _ & _ & H & _).
    apply (H {| resp_status_code := 200; resp_url := detail_api_url "999";
                resp_json := Raise (LibraryError "Expecting value") |}
             (LibraryError "Expecting value")); reflexivity.
Defined.

Lemma fetch_data_with_httpx_detail_witness :
  fst (fetch_data_with_httpx (world_api 200 (Ok (PDict {[ "aweme_detail" := sample_detail ]})))
         "https://www.douyin.com/video/999" "999" [])
  = Ok (mkVideoData (PStr "999") (PStr "a video")
          (PStr "https://cdn.example/999.mp4") (PStr "someone")).
Proof.
  apply (fetch_data_with_httpx_detail
           (world_api 200 (Ok (PDict {[ "aweme_detail" := sample_detail ]})))
           "https://www.douyin.com/video/999" "999" []
           {| resp_status_code := 200; resp_url := detail_api_url "999";
              resp_json := Ok (PDict {[ "aweme_detail" := sample_detail ]}) |}
           {[ "aweme_detail" := sample_detail ]} sample_detail);
    try reflexivity.
  eexists _, _, _, _, _. repeat split; reflexivity.
Defined.


Lemma get_douyin_info_no_identifier_witness :
  get_douyin_info world_down "https://v.douyin.com/ABC123 copy this" []
  = (Raise (HTTPException 400 "Could not extract video ID from URL"),
     [HttpxGet true "https://v.douyin.com/ABC123";
      Log "ERROR" "Error following redirect: "]) /\
  get_douyin_info world_down "hello, no link in here" []
  = (Raise (HTTPException 400 "Could not extract video ID from URL"), []).
Proof.
  split.
  - destruct (proj1 (get_douyin_info_no_identifier (U:=unicode_14)
                       world_down "https://v.douyin.com/ABC123 copy this" []) eq_refl)
      as (H & _).
    exact H.
  - destruct (proj1 (get_douyin_info_no_identifier (U:=unicode_14)
                       world_down "hello, no link in here" []) eq_refl)
      as (_ & _ & _ & H).
    exact (H eq_refl).
Defined.

Lemma get_douyin_info_falls_back_witness :
  get_douyin_info (world_api 200 (Ok (PDict {[ "aweme_detail" := sample_detail ]})))
    "https://v.douyin.com/ABC123" []
  = (Ok (mkVideoData (PStr "999") (PStr "a video")
           (PStr "https://cdn.example/999.mp4") (PStr "someone")),
     [HttpxGet true "https://v.douyin.com/ABC123"; HttpxGet false (detail_api_url "999")]) /\
  get_douyin_info world_broken_browser "https://www.douyin.com/video/123" []
  = (Ok (mkVideoData (PStr "123") (PStr "Video Description Unavailable")
           (PStr "https://www.douyin.com/video/123") (PStr "Unknown")),
     [PwLaunch;
      Log "ERROR" "Playwright error: ";
      Log "WARNING" "Playwright method failed, falling back to httpx: ";
      HttpxGet false (detail_api_url "123")]).
Proof.
  split.
  - destruct (get_douyin_info_falls_back (U:=unicode_14)
                (world_api 200 (Ok (PDict {[ "aweme_detail" := sample_detail ]})))
                "https://v.douyin.com/ABC123" "999" [] eq_refl) as (_ & H & _).
    now rewrite (proj1 (H eq_refl)).
  - destruct (get_douyin_info_falls_back (U:=unicode_14)
                world_broken_browser "https://www.douyin.com/video/123" "123" [] eq_refl)
      as (_ & _ & H).
    now rewrite (proj1 (H eq_refl no_browser eq_refl)).
Defined.

(** C1, as the claim states it, fails: with the browser capability
    present and the Playwright sequence raising, [get_data_with_playwright]
    is called and raises its [HTTPException] 500, yet the handler returns
    a record: the response is a 200 and not a 500 with an error detail. *)
Lemma playwright_failure_not_500 :
  PLAYWRIGHT_AVAILABLE world_broken_browser = true /\
  fst (playwright_session world_broken_browser "https://www.douyin.com/video/123" [])
  = Raise no_browser /\
  fst (get_data_with_playwright world_broken_browser "https://www.douyin.com/video/123" [])
  = Raise (HTTPException 500 "Playwright error: Executable doesn't exist") /\
  In PwLaunch (snd (get_douyin_info world_broken_browser "https://www.douyin.com/video/123" [])) /\
  fst (get_douyin_info world_broken_browser "https://www.douyin.com/video/123" [])
  = Ok (mkVideoData (PStr "123") (PStr "Video Description Unavailable")
          (PStr "https://www.douyin.com/video/123") (PStr "Unknown")) /\
  ~ responds_500_with_detail
      (fst (get_douyin_info world_broken_browser "https://www.douyin.com/video/123" [])) /\
  http_status (fun _ => false)
    (fst (get_douyin_info world_broken_browser "https://www.douyin.com/video/123" []))
  = 200%Z /\
  http_status (fun _ => true)
    (fst (get_douyin_info world_broken_browser "https://www.douyin.com/video/123" []))
  = 200%Z.
Proof.
  split; [reflexivity|]. split; [reflexivity|]. split; [reflexivity|].
  split; [vm_compute; auto|]. split; [reflexivity|].
  split; [|split; reflexivity].
  intros [detail H]. vm_compute in H. discriminate.
Qed.

Lemma playwright_failure_falls_back_witness :
  get_data_with_playwright world_broken_browser "https://www.douyin.com/video/123" []
  = (Raise (HTTPException 500 "Playwright error: Executable doesn't exist"),
     [PwLaunch; Log "ERROR" "Playwright error: "]) /\
  get_douyin_info world_broken_browser "https://www.douyin.com/video/123" []
  = fetch_data_with_httpx world_broken_browser "https://www.douyin.com/video/123" "123"
      [PwLaunch;
       Log "ERROR" "Playwright error: ";
       Log "WARNING" "Playwright method failed, falling back to httpx: "].
Proof.
  destruct (playwright_failure_falls_back (U:=unicode_14)
              world_broken_browser "https://www.douyin.com/video/123" "123" [] no_browser
              eq_refl eq_refl eq_refl) as (H1 & H2 & _).
  split; [exact (H1 []) | exact H2].
Defined.

Lemma get_douyin_info_resolves_short_link_witness :
  exists evs,
    snd (get_douyin_info world_down "look https://v.douyin.com/ABC123 !" [])
    = [] ++ HttpxGet true (clean_url "look https://v.douyin.com/ABC123 !") :: evs.
Proof.
  apply (get_douyin_info_resolves_short_link (U:=unicode_14) world_down).
  exists "look ", "https://v.douyin.com/ABC123", "ABC123", " !".
  split; [reflexivity|].
  exists "https://v.douyin.com/". repeat split; [simpl; auto | discriminate].
Defined.

Lemma get_douyin_info_unresolved_short_link_witness :
  fst (get_douyin_info world_down "look https://v.douyin.com/ABC123 !" [])
  = Raise (HTTPException 400 "Could not extract video ID from URL").
Proof.
  apply (get_douyin_info_unresolved_short_link (U:=unicode_14) world_down _ [] (LibraryError "timed out")).
  - exists "look ", "https://v.douyin.com/ABC123", "ABC123", " !".
    split; [reflexivity|].
    exists "https://v.douyin.com/". repeat split; [simpl; auto | discriminate].
  - reflexivity.
Defined.

Lemma extract_video_id_digits_witness :
  ("67890" <> "" /\ all_in digit "67890" = true /\
   contains "67890" "https://www.douyin.com/note/67890?x=1" = true) /\
  (fullwidth_123 <> "" /\ all_in digit fullwidth_123 = true /\
   contains fullwidth_123 ("https://www.douyin.com/video/" +:+ fullwidth_123) = true).
Proof.
  split.
  - apply (extract_video_id_digits (U:=unicode_14)
             "https://www.douyin.com/note/67890?x=1" "67890").
    reflexivity.
  - apply (extract_video_id_digits (U:=unicode_14)
             ("https://www.douyin.com/video/" +:+ fullwidth_123) fullwidth_123).
    reflexivity.
Defined.

Lemma extract_video_id_detail_api_url_witness :
  extract_video_id (detail_api_url "7300000000000000001") = Some "7300000000000000001".
Proof.
  apply extract_video_id_detail_api_url; [discriminate | reflexivity].
Defined.

Lemma get_douyin_info_requests_witness :
  filter is_outbound
    (snd (get_douyin_info (world_api 404 (Raise (LibraryError "Expecting value")))
            "https://v.douyin.com/ABC123" []))
  = [HttpxGet true "https://v.douyin.com/ABC123"; HttpxGet false (detail_api_url "999")].
Proof.
  now rewrite (get_douyin_info_requests (U:=unicode_14)
                 (world_api 404 (Raise (LibraryError "Expecting value")))
                 "https://v.douyin.com/ABC123" [] eq_refl).
Defined.

Lemma fetch_data_with_httpx_odd_body_witness :
  fst (fetch_data_with_httpx (world_api 200 (Ok PNone)) "https://www.douyin.com/video/999" "999" [])
  = Ok (mkVideoData (PStr "999") (PStr "Video Description Unavailable")
          (PStr "https://www.douyin.com/video/999") (PStr "Unknown")) /\
  fst (fetch_data_with_httpx (world_api 200 (Ok (PInt 5))) "https://www.douyin.com/video/999" "999" [])
  = Ok (mkVideoData (PStr "999") (PStr "Error retrieving video details")
          (PStr "https://www.douyin.com/video/999") (PStr "Unknown")) /\
  fst (fetch_data_with_httpx (world_api 200 (Ok (PList [PStr "aweme_detail"])))
         "https://www.douyin.com/video/999" "999" [])
  = Ok (mkVideoData (PStr "999") (PStr "Error retrieving video details")
          (PStr "https://www.douyin.com/video/999") (PStr "Unknown")) /\
  fst (fetch_data_with_httpx (world_api 200 (Ok (PStr "no aweme_detail here")))
         "https://www.douyin.com/video/999" "999" [])
  = Ok (mkVideoData (PStr "999") (PStr "Error retrieving video details")
          (PStr "https://www.douyin.com/video/999") (PStr "Unknown")).
Proof.
  split; [|split; [|split]].
  - destruct (fetch_data_with_httpx_odd_body (world_api 200 (Ok PNone))
                "https://www.douyin.com/video/999" "999" []
                {| resp_status_code := 200; resp_url := detail_api_url "999";
                   resp_json := Ok PNone |} PNone eq_refl eq_refl eq_refl) as (H & _).
    exact (H eq_refl).
  - destruct (fetch_data_with_httpx_odd_body (world_api 200 (Ok (PInt 5)))
                "https://www.douyin.com/video/999" "999" []
                {| resp_status_code := 200; resp_url := detail_api_url "999";
                   resp_json := Ok (PInt 5) |} (PInt 5) eq_refl eq_refl eq_refl)
      as (_ & H & _).
    exact (H eq_refl eq_refl).
  - destruct (fetch_data_with_httpx_odd_body (world_api 200 (Ok (PList [PStr "aweme_detail"])))
                "https://www.douyin.com/video/999" "999" []
                {| resp_status_code := 200; resp_url := detail_api_url "999";
                   resp_json := Ok (PList [PStr "aweme_detail"]) |}
                (PList [PStr "aweme_detail"]) eq_refl eq_refl eq_refl)
      as (_ & _ & H & _).
    apply (H [PStr "aweme_detail"] eq_refl). now left.
  - destruct (fetch_data_with_httpx_odd_body (world_api 200 (Ok (PStr "no aweme_detail here")))
                "https://www.douyin.com/video/999" "999" []
                {| resp_status_code := 200; resp_url := detail_api_url "999";
                   resp_json := Ok (PStr "no aweme_detail here") |}
                (PStr "no aweme_detail here") eq_refl eq_refl eq_refl)
      as (_ & _ & _ & H).
    exact (H "no aweme_detail here" eq_refl eq_refl).
Defined.

Lemma video_data_of_detail_string_url_list_witness :
  video_data_of_detail
    (PDict {[ "aweme_id" := PStr "999"; "desc" := PStr "a video";
              "video" := PDict {[ "play_addr" :=
                                    PDict {[ "url_list" := PStr "https://cdn.example/999.mp4" ]} ]};
              "author" := PDict {[ "nickname" := PStr "someone" ]} ]})
  = Ok (mkVideoData (PStr "999") (PStr "a video") (PStr "h") (PStr "someone")).
Proof.
  eapply video_data_of_detail_string_url_list; reflexivity.
Defined.

Lemma handle_response_swallows_witness :
  handle_response (E:=pw_error) None sample_other_response [] = (Ok None, []) /\
  handle_response (E:=pw_error) None sample_capture []
  = (Ok (Some (mkVideoData (PStr "999") (PStr "a video")
                 (PStr "https://cdn.example/999.mp4") (PStr "someone"))), []).
Proof.
  split.
  - apply (proj1 (proj2 (handle_response_swallows None sample_other_response []))).
    reflexivity.
  - apply (proj2 (proj2 (handle_response_swallows None sample_capture []))).
    split; [reflexivity|].
    eexists _, _. repeat split; reflexivity.
Defined.

Lemma observe_last_capture_wins_witness :
  fst (observe (E:=pw_error) None
         ([sample_other_response] ++ sample_capture :: [sample_other_response]) [])
  = Ok (Some (mkVideoData (PStr "999") (PStr "a video")
                (PStr "https://cdn.example/999.mp4") (PStr "someone"))).
Proof.
  apply (observe_last_capture_wins (E:=pw_error)
           [sample_other_response] [sample_other_response] sample_capture _ None []).
  - split; [reflexivity|]. eexists _, _. repeat split; reflexivity.
  - intros r' v' [<- | []] [Hurl _]. discriminate.
Defined.

Lemma playwright_session_first_capture_witness :
  fst (playwright_session
         (world_browser [sample_other_response; sample_capture] sample_video_page [] sample_api_page)
         "https://www.douyin.com/video/999" [])
  = Ok (mkVideoData (PStr "999") (PStr "a video")
          (PStr "https://cdn.example/999.mp4") (PStr "someone")).
Proof.
  apply (playwright_session_first_capture (U:=unicode_14)
           (world_browser [sample_other_response; sample_capture] sample_video_page [] sample_api_page)
           "https://www.douyin.com/video/999" []
           [sample_other_response; sample_capture] sample_video_page);
    reflexivity.
Defined.

Lemma playwright_session_title_fallback_witness :
  fst (playwright_session
         (world_browser [sample_other_response] sample_home_page [] sample_api_page)
         "https://www.douyin.com/video/999" [])
  = Ok (mkVideoData (PStr "unknown") (PStr "Douyin") (PStr "https://www.douyin.com/")
          (PStr "Unknown")).
Proof.
  apply (playwright_session_title_fallback (U:=unicode_14)
           (world_browser [sample_other_response] sample_home_page [] sample_api_page)
           "https://www.douyin.com/video/999" []
           [sample_other_response] sample_home_page "Douyin");
    reflexivity.
Defined.

Lemma playwright_session_second_navigation_witness :
  fst (playwright_session
         (world_browser [sample_other_response] sample_video_page [sample_capture] sample_api_page)
         "https://v.douyin.com/ABC123" [])
  = Ok (mkVideoData (PStr "999") (PStr "a video")
          (PStr "https://cdn.example/999.mp4") (PStr "someone")) /\
  fst (playwright_session
         (world_browser [sample_other_response] sample_video_page [] sample_api_page)
         "https://v.douyin.com/ABC123" [])
  = Ok (mkVideoData (PStr "999") (PStr "") (PStr "https://www.douyin.com/video/999")
          (PStr "Unknown")).
Proof.
  split.
  - destruct (playwright_session_second_navigation (U:=unicode_14)
                (world_browser [sample_other_response] sample_video_page
                   [sample_capture] sample_api_page)
                "https://v.douyin.com/ABC123" []
                [sample_other_response] [sample_capture] sample_video_page sample_api_page "999"
                eq_refl eq_refl eq_refl eq_refl eq_refl eq_refl) as (H & _).
    apply H. reflexivity.
  - destruct (playwright_session_second_navigation (U:=unicode_14)
                (world_browser [sample_other_response] sample_video_page [] sample_api_page)
                "https://v.douyin.com/ABC123" []
                [sample_other_response] [] sample_video_page sample_api_page "999"
                eq_refl eq_refl eq_refl eq_refl eq_refl eq_refl) as (_ & H & _).
    apply H; reflexivity.
Defined.

Lemma get_data_with_playwright_raises_500_witness :
  HTTPException 500 "Playwright error: Executable doesn't exist"
  = HTTPException 500 "Playwright not available" \/
  exists pe, HTTPException 500 "Playwright error: Executable doesn't exist"
             = HTTPException 500 ("Playwright error: " +:+ pw_str pe).
Proof.
  apply (get_data_with_playwright_raises_500 (U:=unicode_14)
           world_broken_browser "https://www.douyin.com/video/123" []).
  reflexivity.
Defined.

Lemma get_douyin_info_browser_first_witness :
  fst (get_douyin_info
         (world_browser [sample_capture] sample_video_page [] sample_api_page)
         "https://www.douyin.com/video/999" [])
  = Ok (mkVideoData (PStr "999") (PStr "a video")
          (PStr "https://cdn.example/999.mp4") (PStr "someone")) /\
  filter is_httpx
    (snd (get_douyin_info
            (world_browser [sample_capture] sample_video_page [] sample_api_page)
            "https://www.douyin.com/video/999" []))
  = [].
Proof.
  exact (get_douyin_info_browser_first (U:=unicode_14)
           (world_browser [sample_capture] sample_video_page [] sample_api_page)
           "https://www.douyin.com/video/999" "999" [] _ eq_refl eq_refl eq_refl).
Defined.

Lemma get_douyin_info_placeholder_witness :
  fst (get_douyin_info (world_api 404 (Raise (LibraryError "Expecting value")))
         "see https://v.douyin.com/ABC123 now" [])
  = Ok (mkVideoData (PStr "999") (PStr "Video Description Unavailable")
          (PStr "https://www.douyin.com/video/999") (PStr "Unknown")) /\
  fst (get_douyin_info world_down "https://www.douyin.com/video/123?x=1" [])
  = Ok (mkVideoData (PStr "123") (PStr "Error retrieving video details")
          (PStr "https://www.douyin.com/video/123?x=1") (PStr "Unknown")).
Proof.
  split.
  - destruct (get_douyin_info_placeholder (U:=unicode_14)
                (world_api 404 (Raise (LibraryError "Expecting value")))
                "see https://v.douyin.com/ABC123 now" "999" [] eq_refl eq_refl) as (_ & H).
    apply (H {| resp_status_code := 404; resp_url := detail_api_url "999";
                resp_json := Raise (LibraryError "Expecting value") |});
      [reflexivity | discriminate].
  - destruct (get_douyin_info_placeholder (U:=unicode_14)
                world_down "https://www.douyin.com/video/123?x=1" "123" [] eq_refl eq_refl)
      as (H & _).
    apply (H (LibraryError "timed out")). reflexivity.
Defined.

Lemma get_douyin_info_fallback_requests_witness :
  filter is_httpx
    (snd (get_douyin_info world_broken_browser "https://www.douyin.com/video/123" []))
  = [HttpxGet false (detail_api_url "123")].
Proof.
  exact (get_douyin_info_fallback_requests (U:=unicode_14)
           world_broken_browser "https://www.douyin.com/video/123" "123" [] no_browser
           eq_refl eq_refl eq_refl).
Defined.
